(** * ava-repl: the command registry and dispatch engine

    A shallow embedding of [CommandHandler.ts] (field and command
    specifications, the registry, help rendering, [handleCommand]),
    of [App.connectAvaNode] and of [AvaShell.evalHandler], followed by
    the properties of the dispatcher that the specification states.

    Conventions of the embedding:
    - JavaScript strings are [string]; the source only uses ASCII
      literals, for which byte order and UTF-16 code unit order agree.
      [trim] strips the ASCII white space characters, which is what
      [String.prototype.trim] does on an ASCII line ([isAscii]); a
      property of the evaluator on arbitrary lines is stated for those.
    - Numbers are integers; [to_string] prints them as JavaScript does
      within the safe range ([safeInteger]).
    - Objects used as dictionaries whose enumeration order matters
      ([handlerMap], [contextMethodMap], the decorator metadata) are
      association lists in insertion order (no key of the source is an
      integer index, which would be enumerated first); a lookup that
      finds no own key falls back on what the object inherits.
      [commandSpecMap] is only read by ids of the form context_method
      and is a [gmap].
    - [CommandSpec] objects are mutated by registration, so they live in
      a store and are referred to by reference.
    - Console output, logger output, prompt changes, handler invocations
      and connection attempts are recorded in an event trace.
    - [async]/[await] is sequencing: the session processes one line at
      a time and awaits every call. *)

From stdpp Require Import gmap strings list sorting pretty.

(** ** JavaScript values and coercions *)

Module Js.

(** The values that reach the engine: tokens are strings, a missing
    argument or array slot is [Undefined], defaults may be any
    primitive.  Numbers are restricted to integers (all the source
    needs is [9650]). *)
Inductive value : Type :=
| Undefined
| Null
| Str (s : string)
| Num (n : Z)
| Bool (b : bool).

Global Instance value_eq_dec : EqDecision value.
Proof. solve_decision. Defined.

(** [ToBoolean]: what [if (v)] and [!v] test. *)
Definition truthy (v : value) : bool :=
  match v with
  | Undefined | Null => false
  | Str s => negb (String.eqb s EmptyString)
  | Num n => negb (Z.eqb n 0)
  | Bool b => b
  end.

(** [ToString], as applied by template literals; on a number, its
    decimal digits, which is what JavaScript prints for the integers of
    [safeInteger]. *)
Definition to_string (v : value) : string :=
  match v with
  | Undefined => "undefined"
  | Null => "null"
  | Str s => s
  | Num n => pretty n
  | Bool true => "true"
  | Bool false => "false"
  end.

(** [Number.isSafeInteger] on the numbers, true of the other values:
    the integers up to [Number.MAX_SAFE_INTEGER] in absolute value are
    the ones a JavaScript number holds exactly and prints digit by
    digit (beyond [1e21] it prints an exponent). *)
Definition safeInteger (v : value) : bool :=
  match v with
  | Num n => (Z.abs n <=? 9007199254740991)%Z
  | _ => true
  end.

(** A parameter with a default value: [undefined] selects the default. *)
Definition param_default (v d : value) : value :=
  match v with
  | Undefined => d
  | _ => v
  end.

(** A string-valued field that may still be [undefined]. *)
Definition of_field (o : option string) : value :=
  match o with
  | Some s => Str s
  | None => Undefined
  end.

(** [arr[i]] on an array of strings: out of range reads [undefined]. *)
Definition index (arr : list string) (i : nat) : value :=
  of_field (arr !! i).

(** [Array.prototype.join]. *)
Fixpoint join (sep : string) (l : list string) : string :=
  match l with
  | [] => EmptyString
  | [x] => x
  | x :: rest => x +:+ sep +:+ join sep rest
  end.

End Js.

(** ** Field and command specifications *)

Module FieldSpec.

Record t : Type := mk { name : string; defaultValue : Js.value }.

(** [constructor(public name:string, public defaultValue=null)] *)
Definition new (name : string) (defaultValue : Js.value) : t :=
  mk name (Js.param_default defaultValue Js.Null).

(** [get toHelpString()] *)
Definition toHelpString (f : t) : string :=
  if negb (Js.truthy (defaultValue f))
  then "<" +:+ name f +:+ ">"
  else "[" +:+ name f +:+ "=" +:+ Js.to_string (defaultValue f) +:+ "]".

(** The two readings of "having a default" that the properties below
    compare: a default was supplied at all, against the truthiness
    test the code performs. *)
Definition hasDefault (f : t) : bool :=
  match defaultValue f with
  | Js.Undefined | Js.Null => false
  | _ => true
  end.

Definition required (f : t) : bool := negb (Js.truthy (defaultValue f)).

End FieldSpec.

Module CommandSpec.

Record t : Type := mk {
  name : option string;
  context : option string;
  countRequiredFields : nat;
  fields : list FieldSpec.t;
  description : string
}.

(** The loop of the constructor, counter threaded through. *)
Fixpoint count_loop (fs : list FieldSpec.t) (count : nat) : nat :=
  match fs with
  | [] => count
  | field :: rest =>
      if negb (Js.truthy (FieldSpec.defaultValue field))
      then count_loop rest (S count)
      else count_loop rest count
  end.

(** [constructor(public fields: FieldSpec[], public description:string)];
    [name] and [context] stay undefined until registration. *)
Definition new (fields : list FieldSpec.t) (description : string) : t :=
  mk None None (count_loop fields 0) fields description.

(** [validateInput(...params)] *)
Definition validateInput {A} (s : t) (params : list A) : bool :=
  if length params <? countRequiredFields s then false else true.

(** [get id()] *)
Definition id (s : t) : string :=
  Js.to_string (Js.of_field (context s)) +:+ "_" +:+
  Js.to_string (Js.of_field (name s)).

(** The first line built by [printUsage], before the prefix. *)
Definition usageLine (s : t) : string :=
  let out := Js.to_string (Js.of_field (name s)) in
  let fieldStrs := map FieldSpec.toHelpString (fields s) in
  if 0 <? length fieldStrs
  then out +:+ " " +:+ Js.join " " fieldStrs
  else out.

(** [printUsage(prefix)]: the three lines sent to [console.log]. *)
Definition printUsage (s : t) (prefix : string) : list string :=
  [ prefix +:+ usageLine s;
    prefix +:+ "- " +:+ description s;
    EmptyString ].

Definition setName (s : t) (n : string) : t :=
  mk (Some n) (context s) (countRequiredFields s) (fields s) (description s).

Definition setContext (s : t) (c : string) : t :=
  mk (name s) (Some c) (countRequiredFields s) (fields s) (description s).

End CommandSpec.

(** ** Effects: thrown values, events, outcomes *)

(** A thrown value; the engine only ever reads [message] and calls
    [toString] on it. *)
Inductive thrown : Type := Error (name message : string).

Definition thrown_message (e : thrown) : string :=
  match e with Error _ m => m end.

(** [Error.prototype.toString] *)
Definition thrown_toString (e : thrown) : string :=
  match e with
  | Error n m =>
      if String.eqb n EmptyString then m
      else if String.eqb m EmptyString then n
      else n +:+ ": " +:+ m
  end.

Definition TypeError (m : string) : thrown := Error "TypeError" m.

Inductive event : Type :=
| ConsoleLog (line : string)
| ConsoleError (line : string)
| LogInfo (line : string)
| LogError (e : thrown)
| NewAvalanche (address port protocol : Js.value)
| Invoke (context method : string) (args : list string)
| SetPrompt (prompt : string)
| Callback (result : Js.value).

Global Instance thrown_eq_dec : EqDecision thrown.
Proof. solve_decision. Defined.

Global Instance event_eq_dec : EqDecision event.
Proof. solve_decision. Defined.

(** How a call ends: it returns, it throws, or the process is gone. *)
Inductive outcome (A : Type) : Type :=
| Returned (a : A)
| Threw (e : thrown)
| Exited.

Arguments Returned {A} a.
Arguments Threw {A} e.
Arguments Exited {A}.

(** ** Objects *)

(** References to [CommandSpec] objects in the store. *)
Abbreviation ref := nat (only parsing).

(** A handler object, as far as the engine looks at it. *)
Record handler : Type := mkHandler {
  (** [Reflect.getMetadata(commandsMetadata, obj)]: decorated property
      names with the spec object attached to each, in decoration order
      (empty when nothing is decorated). *)
  metadata : list (string * ref);
  (** the property names a [for ... in] over the object yields *)
  enumerable : list string;
  (** [obj[m]] is truthy *)
  member : string → bool
}.

Module JsObject.

(** An object used as a dictionary: its own properties in insertion
    order, and what the prototype chain answers for other names. *)
Record t (V : Type) : Type := mk {
  own : list (string * V);
  inherited : string → option V
}.
Arguments mk {V} own inherited.
Arguments own {V} _.
Arguments inherited {V} _.

Fixpoint assoc {V} (l : list (string * V)) (k : string) : option V :=
  match l with
  | [] => None
  | (k', v) :: rest => if String.eqb k' k then Some v else assoc rest k
  end.

(** [o[k]] *)
Definition get {V} (o : t V) (k : string) : option V :=
  match assoc (own o) k with
  | Some v => Some v
  | None => inherited o k
  end.

(** [l[k] = v] on the own properties: an existing key keeps its place. *)
Fixpoint assign {V} (l : list (string * V)) (k : string) (v : V)
  : list (string * V) :=
  match l with
  | [] => [(k, v)]
  | (k', v') :: rest =>
      if String.eqb k' k then (k', v) :: rest
      else (k', v') :: assign rest k v
  end.

(** [Object.keys(o)] and the order of [for (k in o)]: nothing inherited
    from [Object.prototype] is enumerable. *)
Definition keys {V} (l : list (string * V)) : list string := map fst l.

(** The names every object inherits from [Object.prototype]. *)
Definition objectPrototypeNames : list string :=
  [ "constructor"; "__defineGetter__"; "__defineSetter__";
    "hasOwnProperty"; "__lookupGetter__"; "__lookupSetter__";
    "isPrototypeOf"; "propertyIsEnumerable"; "toString"; "valueOf";
    "__proto__"; "toLocaleString" ].

End JsObject.

Record CommandHandler : Type := mkCommandHandler {
  handlerMap : JsObject.t handler;
  activeContext : option string;
  commandSpecMap : gmap string ref;
  contextMethodMap : list (string * list string)
}.

(** ** External collaborators

    Code the engine calls but does not contain: the tokenizer
    ([StringUtility.splitTokens]), the node client behind
    [connectAvaNode], the bodies of the handler methods, and the
    language runtime.  Their effects stay inside an abstract [World];
    none of the handler bodies in the source assigns [App.isConnected]
    or touches the [CommandHandler].  Property reads that throw are
    outside the model. *)
Class Collaborators : Type := {
  World : Type;
  (** [StringUtility.splitTokens(line)] *)
  splitTokens : string → list string;
  (** the host runtime: what a plain object answers for a name it does
      not own ([toString], [constructor], ...), inherited from
      [Object.prototype] *)
  objectPrototype : string → option handler;
  (** [new AvaClient(ava)] and [avaClient.init()]: returns or throws *)
  clientInit : Js.value → Js.value → Js.value → World → option thrown * World;
  (** the block of [connectAvaNode] that reads the keystore user from
      the process environment *)
  envKeystoreUser : World → option thrown * World;
  (** [App.avaClient.nodeId] and the address the client reports *)
  nodeId : World → string;
  nodeAddress : World → string;
  (** [handlerMap[context][method].call(handler, ...args)]: returns or
      throws *)
  methodBody : string → string → list string → World → option thrown * World
}.

Section Engine.

Context `{Collaborators}.

(** The statics of [App], the [CommandSpec] store, the outside world
    and everything observable the session did so far. *)
Record App : Type := mkApp {
  isConnected : bool;
  commandHandler : CommandHandler;
  specs : gmap nat CommandSpec.t;
  node : World;
  trace : list event
}.

(** A computation over the session: state passing with an outcome. *)
Definition M (A : Type) : Type := App → outcome A * App.

Definition ret {A} (a : A) : M A := λ st, (Returned a, st).

Definition bind {A B} (m : M A) (k : A → M B) : M B :=
  λ st,
    match m st with
    | (Returned a, st') => k a st'
    | (Threw e, st') => (Threw e, st')
    | (Exited, st') => (Exited, st')
    end.

Definition throw {A} (e : thrown) : M A := λ st, (Threw e, st).

(** [process.exit()] *)
Definition processExit {A} : M A := λ st, (Exited, st).

(** [try { body } catch (error) { handler }]: state changes made
    before the throw stay. *)
Definition tryCatch {A} (body : M A) (handler : thrown → M A) : M A :=
  λ st,
    match body st with
    | (Threw e, st') => handler e st'
    | r => r
    end.

Definition gets {A} (f : App → A) : M A := λ st, (Returned (f st), st).

Definition modify (f : App → App) : M unit := λ st, (Returned tt, f st).

Definition emit (e : event) : M unit :=
  modify (λ st, mkApp (isConnected st) (commandHandler st) (specs st)
                      (node st) (trace st ++ [e])).

Definition setConnected (b : bool) : M unit :=
  modify (λ st, mkApp b (commandHandler st) (specs st) (node st) (trace st)).

Definition modifyHandler (f : CommandHandler → CommandHandler) : M unit :=
  modify (λ st, mkApp (isConnected st) (f (commandHandler st)) (specs st)
                      (node st) (trace st)).

Definition setSpec (r : nat) (s : CommandSpec.t) : M unit :=
  modify (λ st, mkApp (isConnected st) (commandHandler st)
                      (<[r := s]> (specs st)) (node st) (trace st)).

(** A call into the outside world that returns or throws. *)
Definition external (f : World → option thrown * World) : M unit :=
  λ st,
    let '(r, w) := f (node st) in
    let st' := mkApp (isConnected st) (commandHandler st) (specs st) w
                     (trace st) in
    match r with
    | None => (Returned tt, st')
    | Some e => (Threw e, st')
    end.

(** [for (x of l) body(x)] *)
Fixpoint forEach {A} (l : list A) (body : A → M unit) : M unit :=
  match l with
  | [] => ret tt
  | x :: rest => bind (body x) (λ _, forEach rest body)
  end.

Definition consoleLog (line : string) : M unit := emit (ConsoleLog line).
Definition consoleError (line : string) : M unit := emit (ConsoleError line).

End Engine.

Global Instance M_ret `{Collaborators} : MRet M := λ A a, ret a.
Global Instance M_bind `{Collaborators} : MBind M := λ A B k m, bind m k.

(** ** String helpers of the host language *)

Module StringOps.

Fixpoint trimStart (s : string) : string :=
  match s with
  | String a rest => if Ascii.is_space a then trimStart rest else s
  | EmptyString => s
  end.

(** [String.prototype.trim], on the ASCII white space characters. *)
Definition trim (s : string) : string :=
  String.rev (trimStart (String.rev (trimStart s))).

(** The lines made of ASCII characters only.  On them the white space
    [String.prototype.trim] strips is the white space [trim] strips;
    beyond ASCII it also strips U+00A0, U+FEFF, U+2028 and the other
    Unicode spaces. *)
Fixpoint isAscii (s : string) : bool :=
  match s with
  | EmptyString => true
  | String a rest => (Ascii.nat_of_ascii a <? 128) && isAscii rest
  end.

(** [s.startsWith(p)] *)
Definition startsWith (s p : string) : bool := String.prefix p s.

(** [Array.prototype.sort()] on strings: ascending code unit order. *)
Definition sort (l : list string) : list string := merge_sort String.le l.

(** [a == b] where [b] is a string literal. *)
Definition eqStr (a : Js.value) (b : string) : bool :=
  match a with
  | Js.Str s => String.eqb s b
  | _ => false
  end.

(** [(a || b)] on possibly missing strings. *)
Definition orElse (a b : option string) : option string :=
  if Js.truthy (Js.of_field a) then a else b.

End StringOps.

(** ** The command handler *)

Definition META_COMMANDS : list string := [ "help"; "exit" ].

Definition CONNECT_USAGE : string :=
  "connect [ip=127.0.0.1] [port=9650] [protocol=http]".

Section Dispatcher.

Context `{Collaborators}.

(** The object [new CommandHandler()] starts from: the field
    initialisers [commandSpecMap = {}] and [contextMethodMap = {}];
    [handlerMap] is assigned later in the constructor and not read
    before. *)
Definition blankCommandHandler : CommandHandler :=
  mkCommandHandler (JsObject.mk [] objectPrototype) None ∅ [].

(** [map[commandName]] as the target of a property assignment. *)
Definition deref (r : nat) : M CommandSpec.t :=
  st ← gets specs;
  match st !! r with
  | Some s => mret s
  | None => throw (TypeError "Cannot set properties of undefined")
  end.

Definition setCommandSpecMap (k : string) (r : nat) : M unit :=
  modifyHandler (λ ch,
    mkCommandHandler (handlerMap ch) (activeContext ch)
      (<[k := r]> (commandSpecMap ch)) (contextMethodMap ch)).

Definition setHandlerMap (hm : JsObject.t handler) : M unit :=
  modifyHandler (λ ch,
    mkCommandHandler hm (activeContext ch) (commandSpecMap ch)
      (contextMethodMap ch)).

Definition setContextMethodMap (f : list (string * list string) →
                                    list (string * list string)) : M unit :=
  modifyHandler (λ ch,
    mkCommandHandler (handlerMap ch) (activeContext ch) (commandSpecMap ch)
      (f (contextMethodMap ch))).

Definition setActiveContext (c : option string) : M unit :=
  modifyHandler (λ ch,
    mkCommandHandler (handlerMap ch) c (commandSpecMap ch)
      (contextMethodMap ch)).

(** [addCommandSpec(obj, context)] *)
Definition addCommandSpec (obj : handler) (context : string) : M unit :=
  forEach (metadata obj) (λ entry,
    let commandName := entry.1 in
    let r := entry.2 in
    s ← deref r;
    setSpec r (CommandSpec.setName s commandName);;
    s ← deref r;
    setSpec r (CommandSpec.setContext s context);;
    s ← deref r;
    setCommandSpecMap (CommandSpec.id s) r).

(** [contextMethodMap[context].push(m)] *)
Definition pushMethod (context m : string)
    (cmm : list (string * list string)) : list (string * list string) :=
  match JsObject.assoc cmm context with
  | Some ms => JsObject.assign cmm context (ms ++ [m])
  | None => cmm
  end.

(** [constructor()], given the five handler instances it creates. *)
Definition newCommandHandler
    (infoHandler keystoreHandler avmHandler platformHandler
       healthHandler : handler) : M unit :=
  modifyHandler (λ _, blankCommandHandler);;
  addCommandSpec keystoreHandler "keystore";;
  addCommandSpec infoHandler "info";;
  addCommandSpec avmHandler "avm";;
  addCommandSpec platformHandler "platform";;
  addCommandSpec healthHandler "health";;
  setHandlerMap (JsObject.mk
    [ ("info", infoHandler);
      ("keystore", keystoreHandler);
      ("avm", avmHandler);
      ("platform", platformHandler);
      ("health", healthHandler) ] objectPrototype);;
  ch ← gets commandHandler;
  forEach (JsObject.keys (JsObject.own (handlerMap ch))) (λ context,
    setContextMethodMap (λ cmm, JsObject.assign cmm context []);;
    match JsObject.get (handlerMap ch) context with
    | Some h =>
        forEach (enumerable h) (λ m,
          if StringOps.startsWith m "_" then mret tt
          else setContextMethodMap (pushMethod context m))
    | None => mret tt
    end).

(** [getTopLevelCommands()] *)
Definition getTopLevelCommands (ch : CommandHandler) : list string :=
  let out := [] in
  let out := fold_left (λ out cmd, out ++ [cmd]) META_COMMANDS out in
  let out := fold_left (λ out context, out ++ [context])
               (JsObject.keys (JsObject.own (handlerMap ch))) out in
  out.

(** [isContext(context)]: the handler, or undefined. *)
Definition isContext (ch : CommandHandler) (context : string)
  : option handler :=
  JsObject.get (handlerMap ch) context.

(** [getCommandSpec(context, method)] *)
Definition getCommandSpec (st : App) (context method : string)
  : option CommandSpec.t :=
  let commandId := context +:+ "_" +:+ method in
  r ← commandSpecMap (commandHandler st) !! commandId;
  specs st !! r.

Definition printLines (lines : list string) : M unit :=
  forEach lines consoleLog.

(** The body of the inner loop of [printHelp]. *)
Definition printHelpMethod (context method : string) : M unit :=
  st ← gets id;
  match getCommandSpec st context method with
  | Some commandSpec => printLines (CommandSpec.printUsage commandSpec "    ")
  | None => consoleLog ("    " +:+ method);; consoleLog EmptyString
  end.

(** [printHelp(targetContext)] *)
Definition printHelp (targetContext : option string) : M unit :=
  ch ← gets commandHandler;
  let targetContext := StringOps.orElse targetContext (activeContext ch) in
  consoleLog "-------------------";;
  consoleLog "SUPPORTED COMMANDS:";;
  consoleLog "-------------------";;
  let contexts := StringOps.sort (JsObject.keys (contextMethodMap ch)) in
  forEach contexts (λ context,
    if Js.truthy (Js.of_field targetContext)
       && negb (StringOps.eqStr (Js.of_field targetContext) context)
    then mret tt
    else
      consoleLog context;;
      let methods :=
        StringOps.sort
          (default [] (JsObject.assoc (contextMethodMap ch) context)) in
      forEach methods (printHelpMethod context);;
      consoleLog EmptyString).

(** [printHelpBasic()] *)
Definition printHelpBasic : M unit :=
  consoleError "Invalid command. Type help to see all supported commands".

End Dispatcher.

(** ** Connecting, dispatching and the shell's evaluator *)

Section Session.

Context `{Collaborators}.

Definition BANNER : string :=
  "*************************************************".

(** [App.printNodeInfo()] *)
Definition printNodeInfo : M unit :=
  consoleLog BANNER;;
  consoleLog "AVA shell initialized.";;
  consoleLog EmptyString;;
  connected ← gets isConnected;
  (if negb connected then consoleLog "Node is disconnected"
   else
     w ← gets node;
     consoleLog ("Node ID: " +:+ nodeId w);;
     consoleLog ("Node Address: " +:+ nodeAddress w));;
  consoleLog BANNER.

(** [App.connectAvaNode(address="127.0.0.1", port=9650, protocol="http")] *)
Definition connectAvaNode (address port protocol : Js.value) : M unit :=
  let address := Js.param_default address (Js.Str "127.0.0.1") in
  let port := Js.param_default port (Js.Num 9650) in
  let protocol := Js.param_default protocol (Js.Str "http") in
  tryCatch
    (emit (NewAvalanche address port protocol);;
     external (clientInit address port protocol);;
     setConnected true;;
     printNodeInfo;;
     external envKeystoreUser)
    (λ error,
       consoleError
         ("Failed to connect to AVA node. " +:+ thrown_toString error);;
       setConnected false).

(** The [try { await methodFn.call(handler, ...params) } catch] at the
    end of [handleCommand]. *)
Definition invoke (context method : string) (params : list string)
  : M unit :=
  tryCatch
    (emit (Invoke context method params);;
     external (methodBody context method params))
    (λ error, emit (LogError error)).

(** The part of [handleCommand] after the context is resolved. *)
Definition dispatch (ch : CommandHandler) (context : Js.value)
    (params : list string) : M unit :=
  match JsObject.get (handlerMap ch) (Js.to_string context) with
  | None => consoleLog "Unknown context or command"
  | Some handler =>
      let method := Js.index params 0 in
      let params := tail params in
      if negb (member handler (Js.to_string method))
      then consoleLog ("Unknown method " +:+ Js.to_string method
                       +:+ " in context " +:+ Js.to_string context)
      else
        connected ← gets isConnected;
        if negb connected
        then consoleError "Node is disconnected";;
             consoleLog CONNECT_USAGE
        else
          st ← gets id;
          match getCommandSpec st (Js.to_string context)
                  (Js.to_string method) with
          | Some commandSpec =>
              if negb (CommandSpec.validateInput commandSpec params)
              then consoleLog "Invalid Arguments";;
                   printLines (CommandSpec.printUsage commandSpec "Usage: ")
              else invoke (Js.to_string context) (Js.to_string method) params
          | None =>
              invoke (Js.to_string context) (Js.to_string method) params
          end
  end.

(** [handleCommand(cmd)] *)
Definition handleCommand (cmd : string) : M unit :=
  let params := splitTokens cmd in
  ch ← gets commandHandler;
  if length params <? 1 then printHelpBasic
  else if (length params =? 1) && StringOps.eqStr (Js.index params 0) "help"
  then printHelp None
  else if (length params =? 2)
          && bool_decide
               (is_Some (isContext ch (Js.to_string (Js.index params 0))))
          && StringOps.eqStr (Js.index params 1) "help"
  then printHelp (params !! 0)
  else if StringOps.eqStr (Js.index params 0) "connect"
  then
    let params := tail params in
    connectAvaNode (Js.index params 1) (Js.index params 2)
      (Js.index params 3)
  else
    let context := Js.of_field (activeContext ch) in
    if negb (Js.truthy context)
    then
      if length params <? 2 then printHelpBasic
      else dispatch ch (Js.index params 0) (tail params)
    else dispatch ch context params.

(** [AvaShell.updatePrompt()] *)
Definition updatePrompt : M unit :=
  ch ← gets commandHandler;
  let prompt := "ava" in
  let prompt :=
    if Js.truthy (Js.of_field (activeContext ch))
    then prompt +:+ " " +:+ Js.to_string (Js.of_field (activeContext ch))
    else prompt in
  emit (SetPrompt (prompt +:+ "> ")).

Definition callback (result : Js.value) : M unit := emit (Callback result).

(** [AvaShell.evalHandler(cmd, context, filename, callback)] *)
Definition evalHandler (cmd : string) : M unit :=
  tryCatch
    (let cmd := StringOps.trim cmd in
     if negb (Js.truthy (Js.Str cmd)) then callback Js.Null
     else
       emit (LogInfo ("eval " +:+ cmd));;
       ch ← gets commandHandler;
       if String.eqb cmd "exit"
       then
         if Js.truthy (Js.of_field (activeContext ch))
         then setActiveContext None;;
              updatePrompt;;
              callback Js.Null
         else processExit (* does not return *)
       else if bool_decide (is_Some (isContext ch cmd))
               && negb (StringOps.eqStr (Js.of_field (activeContext ch)) cmd)
       then setActiveContext (Some cmd);;
            updatePrompt;;
            callback Js.Null
       else
         handleCommand cmd;;
         callback Js.Undefined)
    (λ error,
       emit (LogError error);;
       if Js.truthy (Js.Str (thrown_message error))
       then callback (Js.Str ("Error: " +:+ thrown_message error))
       else callback (Js.Str "Unexpected error")).

(** Running a computation from a state. *)
Definition run {A} (m : M A) (st : App) : outcome A * App := m st.

(** The methods invoked in a trace. *)
Definition isInvoke (e : event) : bool :=
  match e with Invoke _ _ _ => true | _ => false end.

Definition invocations (tr : list event) : list event :=
  List.filter isInvoke tr.

End Session.

(** ** The handler classes of the source

    Each class is listed with its methods in declaration order; a
    decorated method carries the [CommandSpec] its [@command] decorator
    builds.  Method bodies belong to the collaborators. *)

Definition classDecl : Type := list (string * option CommandSpec.t).

Definition arg (name : string) : FieldSpec.t :=
  FieldSpec.new name Js.Undefined.

Definition argDefault (name default : string) : FieldSpec.t :=
  FieldSpec.new name (Js.Str default).

Definition command (name : string) (fields : list FieldSpec.t)
    (description : string) : string * option CommandSpec.t :=
  (name, Some (CommandSpec.new fields description)).

Definition helper (name : string) : string * option CommandSpec.t :=
  (name, None).

Definition InfoCommandHandler : classDecl :=
  [ command "nodeId"
       []
       "Show current node ID";
    command "txFee"
       []
       "Get transaction fee of the network";
    command "networkId"
       []
       "Get the ID of the network this node is participating in.";
    command "networkName"
       []
       "Get the name of the network this node is participating in.";
    command "nodeVersion"
       []
       "Show current node version";
    command "peers"
       []
       "Show the peers connected to the node" ].

Definition HealthCommandHandler : classDecl :=
  [ command "getLiveness"
       []
       "Check health of node" ].

Definition KeystoreCommandHandler : classDecl :=
  [ command "listUsers"
       []
       "List the names of all users on the node";
    command "createUser"
       [arg "username"; arg "password"]
       "Creates a user in the node’s database.";
    command "deleteUser"
       [arg "username"; arg "password"]
       "Delete a user";
    command "exportUser"
       [arg "username"; arg "password"]
       "Export a user";
    command "importUser"
       [arg "username"; arg "password"; arg "encryptedBlob"]
       "Import a user";
    command "login"
       [arg "username"; arg "password"]
       "Authenticate with a username and password";
    command "setUser"
       [arg "username"]
       "Sets the active user for future avm commands" ].

Definition PlatformCommandHandler : classDecl :=
  [ helper "_getActiveUser";
    command "createAddress"
       []
       "Create a new P-Chain address";
    command "listAddresses"
       []
       "Show all P-Chain addresses for current user";
    command "listBalances"
       []
       "List balance for all your P-Chain accounts";
    command "getBalance"
       [arg "address"]
       "Fetch P-Chain account by address";
    command "createSubnet"
       [arg "threshold"; arg "controlKeys..."]
       "Create a new Subnet. The Subnet’s ID is the same as this transaction’s ID.";
    command "getSubnets"
       [arg "subnetIds..."]
       "Get info about specified subnets. If no id specified, get info on all subnets";
    command "getTxStatus"
       [arg "txId"]
       "Check the status of a transaction id";
    command "importAVAX"
       [arg "dest"; argDefault "sourceChain" "X"]
       "Finalize a transfer of AVA from the X-Chain to the P-Chain.";
    command "exportAVAX"
       [arg "amount"; arg "x-dest"]
       "Send AVA from an account on the P-Chain to an address on the X-Chain.";
    command "issueTx"
       [arg "tx"]
       "Issue a transaction to the platform chain";
    command "addValidator"
       [arg "destination"; arg "stakeAmount"; arg "endTimeDays"]
       "Add current node to default subnet (sign and issue the transaction)";
    command "addSubnetValidator"
       [arg "subnetId"; arg "weight"; arg "endTimeDays"]
       "Add current node to default subnet (sign and issue the transaction)";
    command "getPendingValidators"
       [argDefault "subnetId" "default"]
       "List pending validator set for a subnet, or the Default Subnet if no subnetId is specified";
    command "getCurrentValidators"
       [argDefault "subnetId" "default"]
       "List current validator set for a subnet, or the Default Subnet if no subnetId is specified";
    command "isCurrentValidator"
       [argDefault "subnetId" "default"]
       "Check if current node is a validator for a subnet, or the Default Subnet if no subnetId is specified" ].

Definition AvmCommandHandler : classDecl :=
  [ helper "_getActiveUser";
    command "getAssetDescription"
       [arg "assetId"]
       "Get an asset's name and symbol from asset id";
    command "createFixedCapAsset"
       [ arg "name";
         arg "symbol";
         arg "initialHolderAddress";
         arg "initialHolderAmount" ]
       "Create a fixed cap asset with default denomination.";
    command "createVariableCapAsset"
       [ arg "name";
         arg "symbol";
         arg "minterAddresses";
         arg "minterThreshold" ]
       "Create a variable set asset. For a minter set, separate multiple minter addresses with comma.";
    command "mint"
       [arg "amount"; arg "assetId"; arg "toAddress"; arg "minters"]
       "Mint more of a variable supply asset. This creates an unsigned transaction.";
    command "importAVAX"
       [arg "dest"; argDefault "sourceChain" "P"]
       "Import AVAX from a source chain.";
    command "exportAVAX"
       [arg "dest"; arg "amount"]
       "Send AVA from the X-Chain to an account on the P-Chain.";
    command "listAddresses"
       []
       "List all X-Chain addresses controlled by the current user";
    command "listBalances"
       []
       "List balances of all X-Chain addresses controlled by the current user";
    command "createAddress"
       []
       "Create a new X-Chain addresses controlled by the current user";
    command "getBalance"
       [arg "address"; argDefault "asset" "AVAX"]
       "Get the balance of an asset in an account";
    command "getAllBalances"
       [arg "address"]
       "Get the balance of all assets in an account";
    command "send"
       [ arg "fromAddress";
         arg "toAddress";
         arg "amount";
         argDefault "asset" "AVAX" ]
       "Sends asset from an address managed by this node's keystore to a destination address";
    command "getTxStatus"
       [arg "txId"]
       "Check the status of a transaction id";
    command "listTxs"
       []
       "Show the status transactions that have been submitted in this session" ].

(** Evaluating a class definition: every decorator allocates its spec
    object; the class's metadata maps the property to that object. *)
Fixpoint decorate (decl : classDecl) (next : nat)
    (store : gmap nat CommandSpec.t)
  : list (string * nat) * nat * gmap nat CommandSpec.t :=
  match decl with
  | [] => ([], next, store)
  | (m, None) :: rest => decorate rest next store
  | (m, Some spec) :: rest =>
      let '(meta, next', store') :=
        decorate rest (S next) (<[next := spec]> store) in
      ((m, next) :: meta, next', store')
  end.

(** An instance of a class: its methods sit on the prototype, where the
    compiled code leaves them enumerable; everything else it answers to
    is inherited from [Object.prototype]. *)
Definition instantiate (decl : classDecl) (meta : list (string * nat))
  : handler :=
  mkHandler meta (map fst decl)
    (λ m, bool_decide (m ∈ map fst decl ∨ m ∈ JsObject.objectPrototypeNames)).

Record handlers : Type := mkHandlers {
  infoHandler : handler;
  keystoreHandler : handler;
  avmHandler : handler;
  platformHandler : handler;
  healthHandler : handler;
  handlerSpecs : gmap nat CommandSpec.t
}.

(** The classes in the order the module defines them. *)
Definition sourceHandlers : handlers :=
  let '(infoMeta, n, store) := decorate InfoCommandHandler 0 ∅ in
  let '(healthMeta, n, store) := decorate HealthCommandHandler n store in
  let '(keystoreMeta, n, store) := decorate KeystoreCommandHandler n store in
  let '(platformMeta, n, store) := decorate PlatformCommandHandler n store in
  let '(avmMeta, n, store) := decorate AvmCommandHandler n store in
  mkHandlers
    (instantiate InfoCommandHandler infoMeta)
    (instantiate KeystoreCommandHandler keystoreMeta)
    (instantiate AvmCommandHandler avmMeta)
    (instantiate PlatformCommandHandler platformMeta)
    (instantiate HealthCommandHandler healthMeta)
    store.


(** ** Updated states *)

Definition withActiveContext `{Collaborators} (c : option string) (st : App)
  : App :=
  mkApp (isConnected st)
    (mkCommandHandler (handlerMap (commandHandler st)) c
       (commandSpecMap (commandHandler st))
       (contextMethodMap (commandHandler st)))
    (specs st) (node st) (trace st).

Definition withConnected `{Collaborators} (b : bool) (st : App) : App :=
  mkApp b (commandHandler st) (specs st) (node st) (trace st).

Definition withNode `{Collaborators} (w : World) (st : App) : App :=
  mkApp (isConnected st) (commandHandler st) (specs st) w (trace st).

(** The state after the events [evs] were appended to the trace. *)
Definition logged `{Collaborators} (evs : list event) (st : App) : App :=
  mkApp (isConnected st) (commandHandler st) (specs st) (node st)
    (trace st ++ evs).

Definition withContextMethodMap `{Collaborators}
    (cmm : list (string * list string)) (st : App) : App :=
  mkApp (isConnected st)
    (mkCommandHandler (handlerMap (commandHandler st))
       (activeContext (commandHandler st))
       (commandSpecMap (commandHandler st)) cmm)
    (specs st) (node st) (trace st).

Definition withRegistry `{Collaborators}
    (acc : gmap nat CommandSpec.t * gmap string nat) (st : App) : App :=
  mkApp (isConnected st)
    (mkCommandHandler (handlerMap (commandHandler st))
       (activeContext (commandHandler st)) acc.2
       (contextMethodMap (commandHandler st)))
    acc.1 (node st) (trace st).

(** The registry of a state: the spec objects and [commandSpecMap]. *)
Definition registryOf `{Collaborators} (st : App)
  : gmap nat CommandSpec.t * gmap string nat :=
  (specs st, commandSpecMap (commandHandler st)).

(** ** Notions of the specification *)

(** Section 4.1, in the specification's words: "requiredFieldCount =
    number of fields without a default value". *)
Definition fieldsWithoutDefault (fields : list FieldSpec.t) : nat :=
  length (List.filter (λ f, negb (FieldSpec.hasDefault f)) fields).

(** The count the constructor arrives at: fields whose default is
    absent or falsy. *)
Definition fieldsWithFalsyDefault (fields : list FieldSpec.t) : nat :=
  length (List.filter FieldSpec.required fields).

(** Section 4.2, in the specification's words: "meta-commands (help,
    exit, connect) followed by all context names in registration
    order". *)
Definition listTopLevelSpec (ch : CommandHandler) : list string :=
  [ "help"; "exit"; "connect" ] ++ JsObject.keys (JsObject.own (handlerMap ch)).

(** The line is a meta-command: [help], [<context> help], or anything
    starting with [connect]. *)
Definition metaCommand (ch : CommandHandler) (params : list string) : Prop :=
  params = [ "help" ]
  ∨ (∃ c, params = [ c; "help" ] ∧ is_Some (isContext ch c))
  ∨ head params = Some "connect".

(** Step 4 of the [handle] algorithm: the tokens [params] of a line that
    is not a meta-command name context [c], the word [m] and the
    arguments [args], through the active context or through their
    first token. *)
Definition resolved (ch : CommandHandler) (params : list string)
    (c m : string) (args : list string) : Prop :=
  ¬ metaCommand ch params
  ∧ ((activeContext ch = Some c ∧ c ≠ EmptyString ∧ params = m :: args)
     ∨ (Js.truthy (Js.of_field (activeContext ch)) = false
        ∧ params = c :: m :: args)).

(** Steps 5 and 6: the context is known and [m] is a method of its
    handler, so the line is a dispatched (non-meta) command. *)
Definition dispatched (ch : CommandHandler) (params : list string)
    (c m : string) (args : list string) : Prop :=
  resolved ch params c m args
  ∧ ∃ h, JsObject.get (handlerMap ch) c = Some h ∧ member h m = true.

(** What the spec calls the validation of step 8 letting the call
    through. *)
Definition accepted `{Collaborators} (st : App) (c m : string)
    (args : list string) : Prop :=
  ∀ commandSpec, getCommandSpec st c m = Some commandSpec →
                 CommandSpec.validateInput commandSpec args = true.

(** How one command of a context is rendered in the help: its spec's
    usage when there is one, the bare method name otherwise. *)
Definition helpEntry `{Collaborators} (st : App) (context method : string)
  : list string :=
  match getCommandSpec st context method with
  | Some commandSpec => CommandSpec.printUsage commandSpec "    "
  | None => [ "    " +:+ method; EmptyString ]
  end.

(** The block printed for one context: header, entries of its commands
    in sorted order, blank line. *)
Definition helpBlock `{Collaborators} (st : App) (context : string)
  : list string :=
  let methods :=
    StringOps.sort
      (default [] (JsObject.assoc (contextMethodMap (commandHandler st))
                     context)) in
  [ context ] ++ mjoin (map (helpEntry st context) methods) ++ [ EmptyString ].

Definition helpHeader : list string :=
  [ "-------------------"; "SUPPORTED COMMANDS:"; "-------------------" ].

(** The contexts [printHelp] renders when it is restricted to [only]
    (all of them when [only] is missing or empty), in sorted order. *)
Definition helpContexts (ch : CommandHandler) (only : option string)
  : list string :=
  List.filter
    (λ context,
       negb (Js.truthy (Js.of_field only)
             && negb (StringOps.eqStr (Js.of_field only) context)))
    (StringOps.sort (JsObject.keys (contextMethodMap ch))).

(** Section 4.4: what the help shows when restricted to [only]: the
    header and the blocks of those contexts. *)
Definition helpLines `{Collaborators} (st : App) (only : option string)
  : list string :=
  helpHeader
  ++ mjoin (map (helpBlock st) (helpContexts (commandHandler st) only)).

(** ** Registrations as a fold *)

(** A sequence of registrations, as the constructor performs five. *)
Definition registerAll `{Collaborators} (regs : list (handler * string))
  : M unit :=
  forEach regs (λ reg, addCommandSpec reg.1 reg.2).

(** The registrations the constructor performs on its five handlers,
    in its order. *)
Definition constructorRegs
    (infoH keystoreH avmH platformH healthH : handler)
  : list (handler * string) :=
  [ (keystoreH, "keystore"); (infoH, "info"); (avmH, "avm");
    (platformH, "platform"); (healthH, "health") ].

(** The spec objects a sequence of registrations touches, and the
    (id, object) pairs it stores, both in order. *)
Definition registeredRefs (regs : list (handler * string)) : list nat :=
  reg ← regs; map snd (metadata reg.1).

Definition registeredEntries (regs : list (handler * string))
  : list (string * nat) :=
  reg ← regs; map (λ e, (reg.2 +:+ "_" +:+ e.1, e.2)) (metadata reg.1).

Definition flatEntries (regs : list (handler * string))
  : list (string * string * nat) :=
  reg ← regs; map (λ e, (reg.2, e.1, e.2)) (metadata reg.1).

(** One registration, seen as a step on the pair of the spec store and
    [commandSpecMap]: the object gets its name and context, and is
    stored under the id it then has. *)
Definition registerEntry
    (acc : gmap nat CommandSpec.t * gmap string nat)
    (e : string * string * nat)
  : gmap nat CommandSpec.t * gmap string nat :=
  let '(context, commandName, r) := e in
  match acc.1 !! r with
  | Some s =>
      let s' := CommandSpec.setContext (CommandSpec.setName s commandName)
                  context in
      (<[r := s']> acc.1, <[CommandSpec.id s' := r]> acc.2)
  | None => acc
  end.

(** Every stored object carries the id it is stored under. *)
Definition keyedById (acc : gmap nat CommandSpec.t * gmap string nat) : Prop :=
  ∀ k r, acc.2 !! k = Some r →
         ∃ s, acc.1 !! r = Some s ∧ CommandSpec.id s = k.

(** ** Printing computations *)

(** The block of one context, read off a given handler. *)
Definition helpBlockOf `{Collaborators} (ch : CommandHandler) (st : App)
    (context : string) : list string :=
  [ context ]
  ++ mjoin (map (helpEntry st context)
       (StringOps.sort
          (default [] (JsObject.assoc (contextMethodMap ch) context))))
  ++ [ EmptyString ].

(** A computation that only prints: it returns, and the state differs
    by the printed events, which depend on nothing the printing
    changes. *)
Definition prints `{Collaborators} (m : M unit) (out : App → list event)
  : Prop :=
  ∀ st, m st = (Returned tt, logged (out st) st)
        ∧ ∀ evs, out (logged evs st) = out st.

(** Unfolding the primitives of [M] in a goal. *)
Ltac munfold :=
  unfold run, printHelpBasic, printLines, consoleLog, consoleError, callback,
    emit, setConnected, setActiveContext, modifyHandler, modify, gets,
    external, tryCatch, throw, processExit, mret, mbind, M_ret, M_bind,
    ret, bind in *.

Ltac mrun := repeat (progress (munfold; simpl)).

(** ** Completion and the remaining views of the registry *)

Section Completion.

Context `{Collaborators}.

(** [getContextCommands(context)].  [contextMethodMap] is a plain
    object: for a name it does not own but inherits from
    [Object.prototype], the value is not an array, and what the
    [for ... of] over it does depends on how the build compiles the
    loop (the iteration the language defines throws, an index loop
    reads the value's [length]).  The model takes the first; the
    properties of the listing are stated for the names that are not
    inherited, where the two agree. *)
Definition getContextCommands (ch : CommandHandler) (context : string)
  : outcome (list string) :=
  let out := [] in
  match JsObject.assoc (contextMethodMap ch) context with
  | Some cmds =>
      let out := fold_left (λ out cmd, out ++ [ cmd ]) cmds out in
      Returned (fold_left (λ out cmd, out ++ [ cmd ]) META_COMMANDS out)
  | None =>
      match objectPrototype context with
      | Some _ => Threw (TypeError "object is not iterable")
      | None =>
          Returned (fold_left (λ out cmd, out ++ [ cmd ]) META_COMMANDS out)
      end
  end.

(** [AvaShell.getCompletions(needle, haystack)] *)
Definition getCompletions (needle : string) (haystack : list string)
  : list string :=
  List.filter (λ c, StringOps.startsWith c needle) haystack.

(** [AvaShell.completer(line)]: the pair it returns, or [None] where
    the function ends without a [return]. *)
Definition completer (ch : CommandHandler) (line : string)
  : outcome (option (list string * string)) :=
  let params := splitTokens line in
  match params with
  | [] => Returned (Some ([], EmptyString))
  | _ =>
      if negb (Js.truthy (Js.of_field (activeContext ch)))
      then
        match params with
        | [ p0 ] =>
            Returned (Some (getCompletions p0 (getTopLevelCommands ch), p0))
        | [ p0; p1 ] =>
            match getContextCommands ch p0 with
            | Returned cmds => Returned (Some (getCompletions p1 cmds, p1))
            | Threw e => Threw e
            | Exited => Exited
            end
        | _ => Returned None
        end
      else
        match params with
        | [ p0 ] =>
            match getContextCommands ch
                    (Js.to_string (Js.of_field (activeContext ch))) with
            | Returned cmds => Returned (Some (getCompletions p0 cmds, p0))
            | Threw e => Threw e
            | Exited => Exited
            end
        | _ => Returned (Some ([], EmptyString))
        end
  end.

End Completion.

(** The members of a handler that the constructor lists: those a
    [for ... in] yields whose name does not start with an underscore. *)
Definition listedMethods (h : handler) : list string :=
  List.filter (λ m, negb (StringOps.startsWith m "_")) (enumerable h).

Definition underscore : Ascii.ascii := Ascii.ascii_of_nat 95.

(** A string without underscore, as the five context names are. *)
Fixpoint underscoreFree (s : string) : bool :=
  match s with
  | EmptyString => true
  | String a rest => negb (Ascii.eqb a underscore) && underscoreFree rest
  end.

(** What a registration turns a spec object into. *)
Definition registeredAs (s : CommandSpec.t) (commandName context : string)
  : CommandSpec.t :=
  CommandSpec.setContext (CommandSpec.setName s commandName) context.

(** A line of white space only. *)
Fixpoint blank (s : string) : bool :=
  match s with
  | EmptyString => true
  | String a rest => Ascii.is_space a && blank rest
  end.

(** Events of the shell proper, which the command handler never
    produces. *)
Definition isCallback (e : event) : bool :=
  match e with Callback _ => true | _ => false end.

Definition isShellEvent (e : event) : bool :=
  match e with Callback _ | SetPrompt _ => true | _ => false end.

(** The state left by [handleCommand]: only the connectivity flag, the
    outside world and the trace can differ. *)
Definition afterCommand `{Collaborators} (b : bool) (w : World)
    (evs : list event) (st : App) : App :=
  mkApp b (commandHandler st) (specs st) w (trace st ++ evs).

(** ** A handler body with logic of its own *)

(** What [AvmCommandHandler.createFixedCapAsset] does to the outside:
    console lines, the call to the X-Chain client, the hand-over to the
    pending transaction service. *)
Inductive avmEffect : Type :=
| AvmLog (line : string)
| AvmError (line : string)
| XChainCreateFixedCapAsset (username password : string)
    (name symbol : Js.value) (denomination : Z)
    (holderInfos : list (Js.value * Js.value))
| PendingTxAdd (txId : string).

(** The [while (args.length > 0)] loop: two shifts per round. *)
Fixpoint holderLoop (args : list string) : list (Js.value * Js.value) :=
  match args with
  | [] => []
  | addr :: rest =>
      match rest with
      | [] => [ (Js.Str addr, Js.Undefined) ]
      | amt :: rest' => (Js.Str addr, Js.Str amt) :: holderLoop rest'
      end
  end.

Section AvmBodies.

(** [App.avaClient.keystoreCache.getActiveUser()] and the answer of
    [App.ava.XChain().createFixedCapAsset]: a transaction id, or a
    thrown value. *)
Variable activeUser : option (string * string).
Variable xchainCreateFixedCapAsset :
  string → string → Js.value → Js.value → Z →
  list (Js.value * Js.value) → thrown + string.

(** [createFixedCapAsset(name, symbol, ...args)], called with the
    tokens [params]. *)
Definition createFixedCapAsset (params : list string)
  : outcome unit * list avmEffect :=
  let name := Js.index params 0 in
  let symbol := Js.index params 1 in
  let args := drop 2 params in
  match activeUser with
  | None => (Returned tt, [ AvmLog "Set active user first with setUser" ])
  | Some (username, password) =>
      if negb (0 =? length args mod 2)
      then (Returned tt, [ AvmError "Unexpected number of holder arguments" ])
      else
        let holderInfos := holderLoop args in
        let call :=
          XChainCreateFixedCapAsset username password name symbol 0
            holderInfos in
        match xchainCreateFixedCapAsset username password name symbol 0
                holderInfos with
        | inr res => (Returned tt, [ call; PendingTxAdd res ])
        | inl e => (Threw e, [ call ])
        end
  end.

End AvmBodies.

(** The calls of the X-Chain client among the effects. *)
Definition isNodeCall (e : avmEffect) : bool :=
  match e with
  | XChainCreateFixedCapAsset _ _ _ _ _ _ => true
  | _ => false
  end.

(** The holder list written back as the tokens it was read from. *)
Definition holderTokens (holderInfos : list (Js.value * Js.value))
  : list Js.value :=
  holder ← holderInfos; [ holder.1; holder.2 ].

(** ** A tokenizer and a scripted node, for running the engine *)

Definition doubleQuote : Ascii.ascii := Ascii.ascii_of_nat 34.

(** Modelled from the spec: [StringUtility.splitTokens] is not among the
    sources; the specification describes it as splitting a raw line into
    string tokens, treating quoted substrings as single tokens.  [cur]
    is the token being read, in reverse. *)
Fixpoint splitTokensGo (cur : option string) (quoted : bool) (s : string)
  : list string :=
  match s with
  | EmptyString => option_list (String.rev <$> cur)
  | String a rest =>
      if quoted then
        if Ascii.eqb a doubleQuote
        then splitTokensGo cur false rest
        else splitTokensGo (Some (String a (default EmptyString cur))) true rest
      else if Ascii.eqb a doubleQuote
      then splitTokensGo (Some (default EmptyString cur)) true rest
      else if Ascii.is_space a
      then option_list (String.rev <$> cur) ++ splitTokensGo None false rest
      else splitTokensGo (Some (String a (default EmptyString cur))) false rest
  end.

Definition splitTokensModel (line : string) : list string :=
  splitTokensGo None false line.

(** A node that accepts every connection and whose [health] context
    fails on every call, in a runtime where an inherited value answers
    for the names of [Object.prototype]. *)
Definition scriptedNode : Collaborators := {|
  World := unit;
  splitTokens := splitTokensModel;
  objectPrototype := λ k,
    if bool_decide (k ∈ JsObject.objectPrototypeNames)
    then Some (mkHandler [] []
                 (λ m, bool_decide (m ∈ JsObject.objectPrototypeNames)))
    else None;
  clientInit := λ _ _ _ w, (None, w);
  envKeystoreUser := λ w, (None, w);
  nodeId := λ _, "NodeID-1";
  nodeAddress := λ _, "http://127.0.0.1:9650";
  methodBody := λ context _ _ w,
    if String.eqb context "health"
    then (Some (Error "Error" "connection refused"), w)
    else (None, w)
|}.

(** The session during [App.init]: classes defined, node connected;
    then with [new CommandHandler()] run. *)
Definition loadedApp : @App scriptedNode :=
  @mkApp scriptedNode true (@blankCommandHandler scriptedNode)
    (handlerSpecs sourceHandlers) tt [].

Definition startedApp : @App scriptedNode :=
  (@newCommandHandler scriptedNode
     (infoHandler sourceHandlers) (keystoreHandler sourceHandlers)
     (avmHandler sourceHandlers) (platformHandler sourceHandlers)
     (healthHandler sourceHandlers) loadedApp).2.

(** The constructor's registrations of the handlers of the source. *)
Definition sourceRegs : list (handler * string) :=
  constructorRegs
    (infoHandler sourceHandlers) (keystoreHandler sourceHandlers)
    (avmHandler sourceHandlers) (platformHandler sourceHandlers)
    (healthHandler sourceHandlers).

(** Two handler objects that a careless extension registers under the
    same context, each with a [send] command of its own. *)
Definition duplicateRegs : list (handler * string) :=
  [ (mkHandler [ ("send", 0) ] [ "send" ] (λ m, String.eqb m "send"), "avm");
    (mkHandler [ ("send", 1) ] [ "send" ] (λ m, String.eqb m "send"), "avm") ].

Definition duplicateApp : @App scriptedNode :=
  @mkApp scriptedNode true (@blankCommandHandler scriptedNode)
    (<[0 := CommandSpec.new [ arg "toAddress" ] "Send an asset"]>
       (<[1 := CommandSpec.new [] "Send everything"]> ∅))
    tt [].

(** A node that refuses the connection: the initialisation of the
    client throws on every call. *)
Definition unreachableNode : Collaborators := {|
  World := unit;
  splitTokens := splitTokensModel;
  objectPrototype := @objectPrototype scriptedNode;
  clientInit := λ _ _ _ w,
    (Some (Error "Error" "connect ECONNREFUSED 10.0.0.1:9650"), w);
  envKeystoreUser := λ w, (None, w);
  nodeId := λ _, "NodeID-1";
  nodeAddress := λ _, "http://127.0.0.1:9650";
  methodBody := λ _ _ _ w, (None, w)
|}.

(** A session that was connected and whose node has gone away. *)
Definition offlineApp : @App unreachableNode :=
  (@newCommandHandler unreachableNode
     (infoHandler sourceHandlers) (keystoreHandler sourceHandlers)
     (avmHandler sourceHandlers) (platformHandler sourceHandlers)
     (healthHandler sourceHandlers)
     (@mkApp unreachableNode true (@blankCommandHandler unreachableNode)
        (handlerSpecs sourceHandlers) tt [])).2.

(** An X-Chain client that answers every request with the same
    transaction id. *)
Definition answeringXChain (username password : string)
    (name symbol : Js.value) (denomination : Z)
    (holderInfos : list (Js.value * Js.value)) : thrown + string :=
  inr "tx-1".

(** * Properties *)

(** ** Command specifications *)

Lemma count_loop_filter (fs : list FieldSpec.t) (count : nat) :
  CommandSpec.count_loop fs count
  = count + length (List.filter FieldSpec.required fs).
Proof.
  revert count. induction fs as [|f fs IH]; intros count; simpl.
  - lia.
  - unfold FieldSpec.required at 1.
    destruct (negb (Js.truthy (FieldSpec.defaultValue f))); simpl;
      rewrite IH; lia.
Qed.

Lemma countRequiredFields_new (fields : list FieldSpec.t) (d : string) :
  CommandSpec.countRequiredFields (CommandSpec.new fields d)
  = fieldsWithFalsyDefault fields.
Proof. unfold CommandSpec.new; simpl. by rewrite count_loop_filter. Qed.

Lemma validateInput_spec {A} (s : CommandSpec.t) (args : list A) :
  CommandSpec.validateInput s args = true
  ↔ CommandSpec.countRequiredFields s ≤ length args.
Proof.
  unfold CommandSpec.validateInput.
  destruct (Nat.ltb_spec (length args) (CommandSpec.countRequiredFields s));
    split; intros; try done; lia.
Qed.

Lemma filter_required_app (l1 l2 : list FieldSpec.t) :
  length (List.filter FieldSpec.required (l1 ++ l2))
  = length (List.filter FieldSpec.required l1)
    + length (List.filter FieldSpec.required l2).
Proof. by rewrite List.filter_app, length_app. Qed.

(** C6, as the specification words it, fails: a field whose default is
    the empty string has a default value, yet it is counted as
    required. *)
Lemma C6_counterexample :
  CommandSpec.countRequiredFields
    (CommandSpec.new [ FieldSpec.new "memo" (Js.Str EmptyString) ] "Send")
  ≠ fieldsWithoutDefault [ FieldSpec.new "memo" (Js.Str EmptyString) ].
Proof. vm_compute. discriminate. Qed.

(** C6 (amended): for every Command Spec, [countRequiredFields] is the
    number of fields whose default value is absent or falsy;
    [validateInput] is true exactly when at least that many arguments
    are given, so extra trailing arguments always pass; with the two
    required fields [username] and [password] it is false for 0 or 1
    arguments and true for 2 or more.  Where every default that is
    present is truthy, the count is the number of fields without a
    default. *)
Theorem C6_required_count_and_validateInput
    (fields : list FieldSpec.t) (description : string) :
  let s := CommandSpec.new fields description in
  CommandSpec.countRequiredFields s = fieldsWithFalsyDefault fields
  ∧ (∀ args : list string,
       CommandSpec.validateInput s args = true
       ↔ CommandSpec.countRequiredFields s ≤ length args)
  ∧ (∀ args extra : list string,
       CommandSpec.validateInput s args = true →
       CommandSpec.validateInput s (args ++ extra) = true)
  ∧ (∀ args : list string,
       CommandSpec.validateInput
         (CommandSpec.new [ arg "username"; arg "password" ] description) args
       = bool_decide (2 ≤ length args))
  ∧ (Forall (λ f, FieldSpec.hasDefault f = true →
                  Js.truthy (FieldSpec.defaultValue f) = true) fields →
     CommandSpec.countRequiredFields s = fieldsWithoutDefault fields).
Proof.
  intros s. split; [apply countRequiredFields_new|].
  split; [intros args; apply validateInput_spec|].
  split.
  { intros args extra Hv. apply validateInput_spec.
    apply validateInput_spec in Hv. rewrite length_app. lia. }
  split.
  { intros args. unfold CommandSpec.validateInput. simpl.
    destruct (Nat.ltb_spec (length args) 2); case_bool_decide; done || lia. }
  intros Hall. subst s. rewrite countRequiredFields_new.
  unfold fieldsWithFalsyDefault, fieldsWithoutDefault.
  induction Hall as [|f fs Hf _ IH]; [done|]. simpl.
  assert (FieldSpec.required f = negb (FieldSpec.hasDefault f)) as ->.
  { unfold FieldSpec.required, FieldSpec.hasDefault in Hf |- *.
    destruct (FieldSpec.defaultValue f) as [| |str|n|b]; simpl in *;
      try rewrite Hf by done; done. }
  destruct (negb (FieldSpec.hasDefault f)); simpl; by rewrite IH.
Qed.

Lemma C6_witness :
  CommandSpec.validateInput
    (CommandSpec.new [ arg "username"; arg "password" ] "Creates a user")
    ([ "bob"; "secret" ] ++ [ "extra" ]) = true
  ∧ CommandSpec.countRequiredFields
      (CommandSpec.new [ arg "dest"; argDefault "sourceChain" "X" ] "Import")
    = fieldsWithoutDefault [ arg "dest"; argDefault "sourceChain" "X" ].
Proof.
  split.
  - destruct (C6_required_count_and_validateInput
                [ arg "username"; arg "password" ] "Creates a user")
      as (_ & _ & Hextra & _ & _).
    apply Hextra. reflexivity.
  - destruct (C6_required_count_and_validateInput
                [ arg "dest"; argDefault "sourceChain" "X" ] "Import")
      as (_ & _ & _ & _ & Hsame).
    apply Hsame. repeat (constructor; [vm_compute; done|]). constructor.
Defined.

(** C9: a field whose default value is falsy (the empty string, 0,
    null, false, or none given) counts toward [countRequiredFields] and
    is rendered [<name>], by [toHelpString] and so in the usage line
    that [printUsage] prints for the command; a field is optional and
    rendered [[name=default]] only when its default is truthy.  The
    defaults are values that [to_string] prints as JavaScript does. *)
Theorem C9_falsy_default_is_required
    (f : FieldSpec.t) (before after : list FieldSpec.t)
    (d n c prefix : string) :
  Forall (λ g, Js.safeInteger (FieldSpec.defaultValue g) = true)
    (before ++ f :: after) →
  let usage (piece : string) : list string :=
    [ prefix +:+ n +:+ " " +:+
      Js.join " " (map FieldSpec.toHelpString before
                   ++ piece :: map FieldSpec.toHelpString after);
      prefix +:+ "- " +:+ d;
      EmptyString ] in
  (Js.truthy (FieldSpec.defaultValue f) = false →
     FieldSpec.toHelpString f = "<" +:+ FieldSpec.name f +:+ ">"
     ∧ CommandSpec.printUsage
         (registeredAs (CommandSpec.new (before ++ f :: after) d) n c) prefix
       = usage ("<" +:+ FieldSpec.name f +:+ ">")
     ∧ CommandSpec.countRequiredFields
         (CommandSpec.new (before ++ f :: after) d)
       = S (CommandSpec.countRequiredFields
              (CommandSpec.new (before ++ after) d)))
  ∧ (Js.truthy (FieldSpec.defaultValue f) = true →
     FieldSpec.toHelpString f
     = "[" +:+ FieldSpec.name f +:+ "=" +:+
       Js.to_string (FieldSpec.defaultValue f) +:+ "]"
     ∧ CommandSpec.printUsage
         (registeredAs (CommandSpec.new (before ++ f :: after) d) n c) prefix
       = usage ("[" +:+ FieldSpec.name f +:+ "=" +:+
                Js.to_string (FieldSpec.defaultValue f) +:+ "]")
     ∧ CommandSpec.countRequiredFields
         (CommandSpec.new (before ++ f :: after) d)
       = CommandSpec.countRequiredFields
           (CommandSpec.new (before ++ after) d))
  ∧ (∀ n v,
       Js.truthy (FieldSpec.defaultValue (FieldSpec.new n v)) = false
       ↔ v ∈ [ Js.Str EmptyString; Js.Num 0; Js.Bool false; Js.Null;
               Js.Undefined ]).
Proof.
  intros _. cbv zeta.
  assert (∀ piece,
            FieldSpec.toHelpString f = piece →
            CommandSpec.printUsage
              (registeredAs (CommandSpec.new (before ++ f :: after) d) n c)
              prefix
            = [ prefix +:+ n +:+ " " +:+
                Js.join " " (map FieldSpec.toHelpString before
                             ++ piece :: map FieldSpec.toHelpString after);
                prefix +:+ "- " +:+ d;
                EmptyString ]) as Husage.
  { intros piece <-.
    unfold CommandSpec.printUsage, CommandSpec.usageLine, registeredAs,
      CommandSpec.setContext, CommandSpec.setName, CommandSpec.new.
    cbn [CommandSpec.name CommandSpec.fields CommandSpec.description
           Js.of_field Js.to_string].
    rewrite !map_app, !length_app. cbn [map length].
    replace (0 <? length (map FieldSpec.toHelpString before)
                  + S (length (map FieldSpec.toHelpString after)))
      with true by (symmetry; apply Nat.ltb_lt; lia).
    reflexivity. }
  rewrite !countRequiredFields_new. unfold fieldsWithFalsyDefault.
  rewrite !filter_required_app. cbn [List.filter].
  unfold FieldSpec.required.
  split; [|split].
  - intros Hf.
    assert (FieldSpec.toHelpString f = "<" +:+ FieldSpec.name f +:+ ">")
      as Hpiece by (unfold FieldSpec.toHelpString; by rewrite Hf).
    split; [exact Hpiece|]. split; [exact (Husage _ Hpiece)|].
    rewrite Hf. cbn [negb length app]. rewrite ?length_app. simpl. lia.
  - intros Hf.
    assert (FieldSpec.toHelpString f
            = "[" +:+ FieldSpec.name f +:+ "=" +:+
              Js.to_string (FieldSpec.defaultValue f) +:+ "]")
      as Hpiece by (unfold FieldSpec.toHelpString; by rewrite Hf).
    split; [exact Hpiece|]. split; [exact (Husage _ Hpiece)|].
    rewrite Hf. cbn [negb length app]. rewrite ?length_app. simpl. lia.
  - intros m v. unfold FieldSpec.new, Js.param_default.
    cbn [FieldSpec.defaultValue]. rewrite !elem_of_cons, elem_of_nil.
    destruct v as [| |s|z|[]]; cbn [Js.truthy].
    + naive_solver.
    + naive_solver.
    + destruct (String.eqb_spec s EmptyString) as [->|Hs]; cbn [negb];
        [naive_solver|].
      split; [done|]. intros [[= ->]|[[=]|[[=]|[[=]|[[=]|[]]]]]]. done.
    + destruct (Z.eqb_spec z 0) as [->|Hz]; cbn [negb]; [naive_solver|].
      split; [done|]. intros [[=]|[[= ->]|[[=]|[[=]|[[=]|[]]]]]]. done.
    + split; [done|]. intros [[=]|[[=]|[[=]|[[=]|[[=]|[]]]]]].
    + naive_solver.
Qed.

Lemma C9_witness :
  FieldSpec.toHelpString (FieldSpec.new "limit" (Js.Num 0)) = "<limit>"
  ∧ CommandSpec.printUsage
      (registeredAs
         (CommandSpec.new ([ arg "address" ]
                           ++ FieldSpec.new "limit" (Js.Num 0)
                              :: [ argDefault "sourceChain" "X" ]) "List")
         "list" "avm") "Usage: "
    = [ "Usage: list <address> <limit> [sourceChain=X]";
        "Usage: - List";
        EmptyString ]
  ∧ CommandSpec.countRequiredFields
      (CommandSpec.new ([ arg "address" ]
                        ++ FieldSpec.new "limit" (Js.Num 0)
                           :: [ argDefault "sourceChain" "X" ]) "List")
    = S (CommandSpec.countRequiredFields
           (CommandSpec.new ([ arg "address" ]
                             ++ [ argDefault "sourceChain" "X" ]) "List"))
  ∧ FieldSpec.toHelpString (argDefault "sourceChain" "X") = "[sourceChain=X]"
  ∧ CommandSpec.printUsage
      (registeredAs
         (CommandSpec.new ([] ++ argDefault "sourceChain" "X" :: []) "Import")
         "importAva" "platform") "    "
    = [ "    importAva [sourceChain=X]"; "    - Import"; EmptyString ].
Proof.
  destruct (C9_falsy_default_is_required
              (FieldSpec.new "limit" (Js.Num 0)) [ arg "address" ]
              [ argDefault "sourceChain" "X" ] "List" "list" "avm" "Usage: ")
    as (Hfalsy & _ & _).
  { repeat constructor. }
  destruct (C9_falsy_default_is_required
              (argDefault "sourceChain" "X") [] [] "Import" "importAva"
              "platform" "    ")
    as (_ & Htruthy & _).
  { repeat constructor. }
  destruct (Hfalsy eq_refl) as (Hhelp & Husage & Hcount).
  destruct (Htruthy eq_refl) as (Hhelp' & Husage' & _).
  split; [exact Hhelp|]. split; [exact Husage|]. split; [exact Hcount|].
  split; [exact Hhelp'|exact Husage'].
Defined.

(** ** Running computations: the trace they leave *)

Section Running.

Context `{Collaborators}.

Lemma logged_nil (st : App) : logged [] st = st.
Proof. destruct st. unfold logged. simpl. by rewrite app_nil_r. Qed.

Lemma logged_logged (evs1 evs2 : list event) (st : App) :
  logged evs2 (logged evs1 st) = logged (evs1 ++ evs2) st.
Proof. unfold logged. simpl. by rewrite app_assoc. Qed.

Lemma bind_returned {A B} (m : M A) (k : A → M B) (st st' : App) (a : A) :
  m st = (Returned a, st') → (m ≫= k) st = k a st'.
Proof. intros Hm. unfold mbind, M_bind, bind. by rewrite Hm. Qed.

Lemma emit_run (e : event) (st : App) :
  emit e st = (Returned tt, logged [ e ] st).
Proof. reflexivity. Qed.

Lemma prints_emit (e : event) : prints (emit e) (λ _, [ e ]).
Proof. intros st. split; [reflexivity|done]. Qed.

Lemma prints_ret : prints (mret tt) (λ _, []).
Proof. intros st. split; [|done]. by rewrite logged_nil. Qed.

Lemma prints_bind (m1 m2 : M unit) (out1 out2 : App → list event) :
  prints m1 out1 → prints m2 out2 →
  prints (m1;; m2) (λ st, out1 st ++ out2 st).
Proof.
  intros H1 H2 st. destruct (H1 st) as [E1 I1]. split.
  - rewrite (bind_returned _ _ _ _ _ E1).
    destruct (H2 (logged (out1 st) st)) as [E2 _].
    rewrite E2, logged_logged. destruct (H2 st) as [_ I2]. by rewrite I2.
  - intros evs. rewrite I1. destruct (H2 st) as [_ I2]. by rewrite I2.
Qed.

Lemma prints_forEach {A} (l : list A) (body : A → M unit)
    (out : A → App → list event) :
  (∀ x, prints (body x) (out x)) →
  prints (forEach l body) (λ st, mjoin (map (λ x, out x st) l)).
Proof.
  intros Hbody. induction l as [|x l IH]; simpl.
  - apply prints_ret.
  - apply (prints_bind _ _ _ _ (Hbody x) IH).
Qed.

Lemma prints_ext (m : M unit) (out1 out2 : App → list event) :
  (∀ st, out1 st = out2 st) → prints m out1 → prints m out2.
Proof.
  intros Hext Hp st. destruct (Hp st) as [E I]. split.
  - by rewrite <- Hext.
  - intros evs. by rewrite <- !Hext.
Qed.

Lemma prints_printLines (lines : list string) :
  prints (printLines lines) (λ _, map ConsoleLog lines).
Proof.
  unfold printLines.
  eapply prints_ext; [|apply prints_forEach; intros x; apply prints_emit].
  intros st. simpl. induction lines as [|l ls IH]; simpl; [done|].
  by rewrite IH.
Qed.

End Running.

(** ** Help rendering *)

Section Help.

Context `{Collaborators}.

Lemma prints_gets {A} (f : App → A) (k : A → M unit)
    (out : A → App → list event) :
  (∀ evs st, f (logged evs st) = f st) →
  (∀ a, prints (k a) (out a)) →
  prints (gets f ≫= k) (λ st, out (f st) st).
Proof.
  intros Hf Hk st. split.
  - change ((gets f ≫= k) st) with (k (f st) st). apply Hk.
  - intros evs. rewrite Hf. apply Hk.
Qed.

Lemma prints_printHelpMethod (context method : string) :
  prints (printHelpMethod context method)
    (λ st, map ConsoleLog (helpEntry st context method)).
Proof.
  intros st. split; [|done].
  unfold printHelpMethod.
  change ((gets id ≫= ?k) st) with (k st st). cbv beta.
  unfold helpEntry. destruct (getCommandSpec st context method).
  - apply prints_printLines.
  - apply (prints_bind _ _ _ _ (prints_emit _) (prints_emit _)).
Qed.

Lemma map_mjoin {A B} (f : A → B) (ls : list (list A)) :
  map f (mjoin ls) = mjoin (map (map f) ls).
Proof.
  induction ls as [|l ls IH]; simpl; [done|].
  by rewrite map_app, IH.
Qed.

Lemma mjoin_filter_nil {A B} (p : A → bool) (f : A → list B) (l : list A) :
  mjoin (map (λ x, if p x then f x else []) l)
  = mjoin (map f (List.filter p l)).
Proof.
  induction l as [|x l IH]; simpl; [done|].
  destruct (p x); simpl; by rewrite IH.
Qed.

Lemma prints_helpBlock (ch : CommandHandler) (context : string) :
  prints
    (consoleLog context;;
     forEach
       (StringOps.sort
          (default [] (JsObject.assoc (contextMethodMap ch) context)))
       (printHelpMethod context);;
     consoleLog EmptyString)
    (λ st, map ConsoleLog (helpBlockOf ch st context)).
Proof.
  eapply prints_ext;
    [|apply prints_bind;
       [apply prints_emit
       |apply prints_bind;
          [apply prints_forEach; intros m; apply prints_printHelpMethod
          |apply prints_emit]]].
  intros st. cbv beta. unfold helpBlockOf.
  rewrite !map_app, map_mjoin, map_map. reflexivity.
Qed.

Lemma prints_printHelp (target : option string) :
  prints (printHelp target)
    (λ st, map ConsoleLog
             (helpLines st
                (StringOps.orElse target
                   (activeContext (commandHandler st))))).
Proof.
  unfold printHelp.
  eapply prints_ext; [|apply prints_gets; [done|]; intros ch].
  2: { apply prints_bind; [apply prints_emit|].
       apply prints_bind; [apply prints_emit|].
       apply prints_bind; [apply prints_emit|].
       apply prints_forEach. intros context.
       apply (prints_ext _
         (λ st,
            if negb (Js.truthy (Js.of_field
                       (StringOps.orElse target (activeContext ch)))
                     && negb (StringOps.eqStr
                                (Js.of_field
                                   (StringOps.orElse target (activeContext ch)))
                                context))
            then map ConsoleLog (helpBlockOf ch st context)
            else [])); [intros st; reflexivity|].
       destruct (Js.truthy _ && negb _); simpl.
       - apply prints_ret.
       - apply prints_helpBlock. }
  intros st. cbv beta. unfold helpLines, helpHeader, helpContexts.
  rewrite map_app. simpl. do 3 f_equal.
  rewrite map_mjoin, map_map.
  rewrite <- (mjoin_filter_nil _
    (λ x, map ConsoleLog (helpBlock st x))).
  reflexivity.
Qed.

End Help.

Section HelpOrder.

Context `{Collaborators}.

Lemma StronglySorted_filter {A} (R : relation A) (p : A → bool) (l : list A) :
  StronglySorted R l → StronglySorted R (List.filter p l).
Proof.
  induction 1 as [|x l Hl IH Hx]; simpl; [constructor|].
  destruct (p x); [|done]. constructor; [done|].
  apply Forall_forall. intros y Hy.
  apply list_elem_of_In, List.filter_In in Hy as [Hy _].
  rewrite Forall_forall in Hx. apply Hx. by apply list_elem_of_In.
Qed.

Lemma sort_sorted (l : list string) : StronglySorted String.le (StringOps.sort l).
Proof. apply StronglySorted_merge_sort; apply _. Qed.

Lemma sort_perm (l : list string) : StringOps.sort l ≡ₚ l.
Proof. apply merge_sort_Permutation. Qed.

Lemma eqStr_of_field (o : option string) (s : string) :
  StringOps.eqStr (Js.of_field o) s = true ↔ o = Some s.
Proof.
  destruct o as [t|]; simpl; [|done].
  rewrite String.eqb_eq. naive_solver.
Qed.

(** C8, as the specification words it, fails: with a context active and
    no target given, [printHelp] shows the active context only, not all
    of them. *)
Lemma C8_counterexample :
  trace (run (printHelp None)
           (withActiveContext (Some "platform") startedApp)).2
  ≠ trace (withActiveContext (Some "platform") startedApp)
    ++ map ConsoleLog
         (helpLines (withActiveContext (Some "platform") startedApp) None).
Proof.
  intros Heq. apply (f_equal (λ tr, tr !! 3)) in Heq.
  vm_compute in Heq. discriminate.
Qed.

(** C8 (amended): [printHelp] iterates the contexts in sorted name
    order, or only the target context when one is given, or only the
    active context when no target is given and a context is active;
    within each context it iterates the command names in sorted order
    and renders each command by its Command Spec's usage output when a
    spec exists and as the bare method name otherwise. *)
Theorem C8_printHelp_sorted (st : App) (target : option string) :
  let ch := commandHandler st in
  let shown := StringOps.orElse target (activeContext ch) in
  run (printHelp target) st
  = (Returned tt, logged (map ConsoleLog (helpLines st shown)) st)
  ∧ helpLines st shown
    = helpHeader ++ mjoin (map (helpBlock st) (helpContexts ch shown))
  ∧ StronglySorted String.le (helpContexts ch shown)
  ∧ (∀ c, c ∈ helpContexts ch shown
          ↔ c ∈ JsObject.keys (contextMethodMap ch)
            ∧ (Js.truthy (Js.of_field shown) = false ∨ shown = Some c))
  ∧ (∀ c, ∃ methods,
       helpBlock st c
       = [ c ] ++ mjoin (map (helpEntry st c) methods) ++ [ EmptyString ]
       ∧ StronglySorted String.le methods
       ∧ methods ≡ₚ default [] (JsObject.assoc (contextMethodMap ch) c))
  ∧ (∀ c m,
       helpEntry st c m
       = match getCommandSpec st c m with
         | Some commandSpec => CommandSpec.printUsage commandSpec "    "
         | None => [ "    " +:+ m; EmptyString ]
         end).
Proof.
  intros ch shown. split; [apply (prints_printHelp target st)|].
  split; [reflexivity|].
  split; [apply StronglySorted_filter, sort_sorted|].
  split.
  { intros c. unfold helpContexts.
    rewrite list_elem_of_In, List.filter_In, <- list_elem_of_In.
    rewrite (sort_perm (JsObject.keys (contextMethodMap ch))).
    apply and_iff_compat_l.
    rewrite negb_true_iff, andb_false_iff, negb_false_iff.
    by rewrite eqStr_of_field. }
  split; [|reflexivity].
  intros c. eexists. split; [reflexivity|].
  split; [apply sort_sorted|apply sort_perm].
Qed.

End HelpOrder.

(** ** The registry *)

Section Registry.

Context `{Collaborators}.

Lemma id_registered (s : CommandSpec.t) (commandName context : string) :
  CommandSpec.id
    (CommandSpec.setContext (CommandSpec.setName s commandName) context)
  = context +:+ "_" +:+ commandName.
Proof. reflexivity. Qed.

Lemma withRegistry_registryOf (st : App) : withRegistry (registryOf st) st = st.
Proof. by destruct st as [? [] ? ? ?]. Qed.

(** The three assignments of the loop body of [addCommandSpec]. *)
Lemma addCommandSpec_body (context commandName : string) (r : nat)
    (acc : gmap nat CommandSpec.t * gmap string nat) (st : App) :
  is_Some (acc.1 !! r) →
  (s ← deref r;
   setSpec r (CommandSpec.setName s commandName);;
   s ← deref r;
   setSpec r (CommandSpec.setContext s context);;
   s ← deref r;
   setCommandSpecMap (CommandSpec.id s) r) (withRegistry acc st)
  = (Returned tt,
     withRegistry (registerEntry acc (context, commandName, r)) st).
Proof.
  intros [s Hs]. destruct acc as [sp cm]. simpl in Hs.
  unfold registerEntry. simpl. rewrite Hs.
  unfold deref, setSpec, setCommandSpecMap, modifyHandler, modify, gets,
    withRegistry, mret, mbind, M_ret, M_bind, ret, bind. simpl.
  rewrite Hs. simpl. rewrite lookup_insert_eq. simpl.
  rewrite lookup_insert_eq. simpl.
  by rewrite !insert_insert_eq.
Qed.

Lemma registerEntry_allocated
    (acc : gmap nat CommandSpec.t * gmap string nat)
    (e : string * string * nat) (r : nat) :
  is_Some (acc.1 !! r) → is_Some ((registerEntry acc e).1 !! r).
Proof.
  destruct e as [[context commandName] r']. unfold registerEntry.
  destruct (acc.1 !! r') eqn:E; [|done]. simpl. intros Hr.
  destruct (decide (r' = r)) as [->|Hne].
  - rewrite lookup_insert_eq. eauto.
  - by rewrite lookup_insert_ne.
Qed.

Lemma addCommandSpec_loop (context : string) (l : list (string * nat))
    (acc : gmap nat CommandSpec.t * gmap string nat) (st : App) :
  Forall (λ e, is_Some (acc.1 !! e.2)) l →
  forEach l (λ entry,
    let commandName := entry.1 in
    let r := entry.2 in
    s ← deref r;
    setSpec r (CommandSpec.setName s commandName);;
    s ← deref r;
    setSpec r (CommandSpec.setContext s context);;
    s ← deref r;
    setCommandSpecMap (CommandSpec.id s) r) (withRegistry acc st)
  = (Returned tt,
     withRegistry
       (foldl registerEntry acc (map (λ e, (context, e.1, e.2)) l)) st).
Proof.
  revert acc. induction l as [|[commandName r] l IH]; intros acc Hall.
  - reflexivity.
  - inversion Hall as [|? ? Hr Hl]; subst. simpl in Hr.
    cbn [forEach]. unfold bind at 1. cbv zeta. cbn [fst snd].
    rewrite (addCommandSpec_body context commandName r acc st Hr).
    cbn [map foldl fst snd]. apply IH.
    eapply Forall_impl; [exact Hl|].
    intros e. apply registerEntry_allocated.
Qed.

Lemma foldl_registerEntry_allocated (es : list (string * string * nat))
    (acc : gmap nat CommandSpec.t * gmap string nat) (r : nat) :
  is_Some (acc.1 !! r) → is_Some ((foldl registerEntry acc es).1 !! r).
Proof.
  revert acc. induction es as [|e es IH]; intros acc Hr; simpl; [done|].
  apply IH. by apply registerEntry_allocated.
Qed.

Lemma addCommandSpec_run (obj : handler) (context : string)
    (acc : gmap nat CommandSpec.t * gmap string nat) (st : App) :
  Forall (λ e, is_Some (acc.1 !! e.2)) (metadata obj) →
  addCommandSpec obj context (withRegistry acc st)
  = (Returned tt,
     withRegistry
       (foldl registerEntry acc
          (map (λ e, (context, e.1, e.2)) (metadata obj))) st).
Proof. apply addCommandSpec_loop. Qed.

(** Registrations never throw when every decorated property holds a
    spec object, and amount to folding [registerEntry]. *)
Lemma registerAll_run (regs : list (handler * string))
    (acc : gmap nat CommandSpec.t * gmap string nat) (st : App) :
  Forall (λ r, is_Some (acc.1 !! r)) (registeredRefs regs) →
  registerAll regs (withRegistry acc st)
  = (Returned tt,
     withRegistry (foldl registerEntry acc (flatEntries regs)) st).
Proof.
  revert acc. induction regs as [|[obj context] regs IH]; intros acc Hall.
  - reflexivity.
  - unfold registeredRefs in Hall. cbn [mbind list_bind] in Hall.
    apply Forall_app in Hall as [Hobj Hregs]. cbn [fst] in Hobj.
    assert (Forall (λ e : string * nat, is_Some (acc.1 !! e.2))
              (metadata obj)) as Hmeta.
    { apply Forall_forall. intros e He. rewrite Forall_forall in Hobj.
      apply Hobj, list_elem_of_In, in_map. by apply list_elem_of_In. }
    change (registerAll ((obj, context) :: regs))
      with (bind (addCommandSpec obj context) (λ _, registerAll regs)).
    unfold bind. rewrite (addCommandSpec_run obj context acc st Hmeta).
    unfold flatEntries. cbn [mbind list_bind fst snd].
    rewrite foldl_app. apply IH.
    eapply Forall_impl; [exact Hregs|].
    intros r. apply foldl_registerEntry_allocated.
Qed.

Lemma registerEntry_snd (acc : gmap nat CommandSpec.t * gmap string nat)
    (context commandName : string) (r : nat) :
  is_Some (acc.1 !! r) →
  (registerEntry acc (context, commandName, r)).2
  = <[context +:+ "_" +:+ commandName := r]> acc.2.
Proof. intros [s Hs]. unfold registerEntry. by rewrite Hs. Qed.

(** [commandSpecMap] after the registrations: the entries in order, a
    later one replacing an earlier one with the same id. *)
Lemma foldl_registerEntry_snd (regs : list (handler * string))
    (acc : gmap nat CommandSpec.t * gmap string nat) :
  Forall (λ r, is_Some (acc.1 !! r)) (registeredRefs regs) →
  (foldl registerEntry acc (flatEntries regs)).2
  = list_to_map (reverse (registeredEntries regs)) ∪ acc.2.
Proof.
  unfold registeredRefs, registeredEntries, flatEntries.
  revert acc. induction regs as [|[obj context] regs IH]; intros acc Hall.
  - simpl. by rewrite (left_id_L ∅ (∪)).
  - cbn [mbind list_bind fst snd] in *.
    apply Forall_app in Hall as [Hobj Hregs].
    rewrite foldl_app, reverse_app, list_to_map_app.
    rewrite IH.
    2: { eapply Forall_impl; [exact Hregs|].
         intros r. apply foldl_registerEntry_allocated. }
    rewrite <- (assoc_L (∪)). f_equal.
    clear IH Hregs. revert acc Hobj.
    induction (metadata obj) as [|[commandName r] l IHl]; intros acc Hobj.
    + simpl. by rewrite (left_id_L ∅ (∪)).
    + inversion Hobj as [|? ? Hr Hl]; subst.
      cbn [map foldl fst snd]. rewrite IHl.
      2: { eapply Forall_impl; [exact Hl|].
           intros r'. apply registerEntry_allocated. }
      rewrite (registerEntry_snd _ _ _ _ Hr).
      rewrite reverse_cons, list_to_map_app. cbn [list_to_map foldr].
      rewrite <- (assoc_L (∪)). f_equal.
      rewrite insert_empty. apply insert_union_singleton_l.
Qed.

(** The invariant behind distinct ids: every stored object carries the
    id it is stored under, and no object still to be registered is
    stored yet. *)
Lemma foldl_registerEntry_keyed (es : list (string * string * nat))
    (acc : gmap nat CommandSpec.t * gmap string nat) :
  NoDup (map snd es) →
  keyedById acc →
  (∀ k r, acc.2 !! k = Some r → r ∉ map snd es) →
  keyedById (foldl registerEntry acc es).
Proof.
  revert acc. induction es as [|[[context commandName] r] es IH];
    intros acc Hnd Hkeyed Hfresh; [done|].
  cbn [map foldl snd] in *. apply NoDup_cons in Hnd as [Hr Hnd].
  apply IH; [done|..]; unfold registerEntry;
    destruct (acc.1 !! r) as [s|] eqn:Hs; cbn [fst snd].
  - intros k r0 Hk. rewrite id_registered in Hk |- *.
    cbn [fst snd] in Hk |- *.
    destruct (decide (context +:+ "_" +:+ commandName = k)) as [<-|Hne].
    + rewrite lookup_insert_eq in Hk. injection Hk as <-.
      rewrite lookup_insert_eq. eauto.
    + rewrite lookup_insert_ne in Hk by done.
      destruct (Hkeyed k r0 Hk) as (s0 & Hs0 & Hid).
      exists s0. split; [|done].
      rewrite lookup_insert_ne; [done|].
      intros <-. apply (Hfresh k r Hk). left.
  - done.
  - intros k r0 Hk. rewrite id_registered in Hk.
    cbn [fst snd] in Hk.
    destruct (decide (context +:+ "_" +:+ commandName = k)) as [<-|Hne].
    + rewrite lookup_insert_eq in Hk. by injection Hk as <-.
    + rewrite lookup_insert_ne in Hk by done.
      intros Hin. apply (Hfresh k r0 Hk). by right.
  - intros k r0 Hk Hin. apply (Hfresh k r0 Hk). by right.
Qed.

Lemma flatEntries_refs (regs : list (handler * string)) :
  map snd (flatEntries regs) = registeredRefs regs.
Proof.
  unfold flatEntries, registeredRefs.
  induction regs as [|[obj context] regs IH]; [done|].
  cbn [mbind list_bind fst snd]. rewrite map_app, IH. f_equal.
  rewrite map_map. reflexivity.
Qed.

Lemma withContextMethodMap_id (st : App) :
  withContextMethodMap (contextMethodMap (commandHandler st)) st = st.
Proof. by destruct st as [? [] ? ? ?]. Qed.

(** The inner loop of the constructor only fills [contextMethodMap]. *)
Lemma methodLoop_run (context : string) (l : list string) (st : App) :
  ∃ cmm,
    forEach l (λ m,
      if StringOps.startsWith m "_" then mret tt
      else setContextMethodMap (pushMethod context m)) st
    = (Returned tt, withContextMethodMap cmm st).
Proof.
  revert st. induction l as [|m l IH]; intros st.
  - eexists. cbn [forEach]. unfold ret.
    by rewrite withContextMethodMap_id.
  - cbn [forEach]. unfold bind at 1.
    destruct (StringOps.startsWith m "_").
    + apply IH.
    + cbn. destruct (IH (withContextMethodMap
                           (pushMethod context m
                              (contextMethodMap (commandHandler st))) st))
        as [cmm Hcmm].
      exists cmm. unfold withContextMethodMap in *. exact Hcmm.
Qed.

Lemma withContextMethodMap_twice (c1 c2 : list (string * list string))
    (st : App) :
  withContextMethodMap c2 (withContextMethodMap c1 st)
  = withContextMethodMap c2 st.
Proof. reflexivity. Qed.

(** So does the outer loop, over any keys. *)
Lemma contextLoop_run (hm : JsObject.t handler) (keys : list string)
    (st : App) :
  ∃ cmm,
    forEach keys (λ context,
      setContextMethodMap (λ cmm, JsObject.assign cmm context []);;
      match JsObject.get hm context with
      | Some h =>
          forEach (enumerable h) (λ m,
            if StringOps.startsWith m "_" then mret tt
            else setContextMethodMap (pushMethod context m))
      | None => mret tt
      end) st
    = (Returned tt, withContextMethodMap cmm st).
Proof.
  revert st. induction keys as [|context keys IH]; intros st.
  - eexists. cbn [forEach]. unfold ret.
    by rewrite withContextMethodMap_id.
  - cbn [forEach]. unfold bind at 1. unfold mbind, M_bind, bind at 1.
    change (setContextMethodMap ?f st)
      with (Returned tt, withContextMethodMap
                           (f (contextMethodMap (commandHandler st))) st).
    cbv iota beta.
    destruct (JsObject.get hm context) as [h|].
    + destruct (methodLoop_run context (enumerable h)
                  (withContextMethodMap
                     (JsObject.assign (contextMethodMap (commandHandler st))
                        context []) st)) as [c1 ->].
      rewrite withContextMethodMap_twice.
      destruct (IH (withContextMethodMap c1 st)) as [c2 Hc2].
      exists c2. etransitivity; [exact Hc2|].
      apply f_equal, withContextMethodMap_twice.
    + unfold mret, M_ret, ret.
      destruct (IH (withContextMethodMap
                      (JsObject.assign (contextMethodMap (commandHandler st))
                         context []) st)) as [c2 Hc2].
      exists c2. etransitivity; [exact Hc2|].
      apply f_equal, withContextMethodMap_twice.
Qed.

(** The constructor as a whole: it returns when every decorated
    property holds a spec object; the registry is the fold of its five
    registrations, [handlerMap] is the literal of the source, and
    nothing else of the session is touched. *)
Lemma newCommandHandler_run
    (infoH keystoreH avmH platformH healthH : handler) (st : App) :
  Forall (λ r, is_Some (specs st !! r))
    (registeredRefs
       (constructorRegs infoH keystoreH avmH platformH healthH)) →
  ∃ cmm,
    run (newCommandHandler infoH keystoreH avmH platformH healthH) st
    = (Returned tt,
       let acc :=
         foldl registerEntry (specs st, ∅)
           (flatEntries
              (constructorRegs infoH keystoreH avmH platformH healthH)) in
       mkApp (isConnected st)
         (mkCommandHandler
            (JsObject.mk
               [ ("info", infoH); ("keystore", keystoreH); ("avm", avmH);
                 ("platform", platformH); ("health", healthH) ]
               objectPrototype)
            None acc.2 cmm)
         acc.1 (node st) (trace st)).
Proof.
  intros Hall. unfold run, newCommandHandler.
  set (regs := constructorRegs infoH keystoreH avmH platformH healthH) in *.
  set (st0 := mkApp (isConnected st) blankCommandHandler (specs st)
                (node st) (trace st)).
  assert (∀ rest : M unit,
    (addCommandSpec keystoreH "keystore";;
     addCommandSpec infoH "info";;
     addCommandSpec avmH "avm";;
     addCommandSpec platformH "platform";;
     addCommandSpec healthH "health";; rest) st0
    = rest (withRegistry
              (foldl registerEntry (specs st, ∅) (flatEntries regs)) st0))
    as Hregs.
  { intros rest.
    pose proof (registerAll_run regs (specs st, ∅) st0 Hall) as Hrun.
    unfold registerAll, regs, constructorRegs in Hrun.
    cbn [forEach fst snd] in Hrun.
    change (withRegistry (specs st, ∅) st0) with st0 in Hrun.
    unfold mbind, M_bind. unfold bind in Hrun |- *.
    destruct (addCommandSpec keystoreH "keystore" st0) as [[[]| |] s1];
      [|discriminate..].
    destruct (addCommandSpec infoH "info" s1) as [[[]| |] s2];
      [|discriminate..].
    destruct (addCommandSpec avmH "avm" s2) as [[[]| |] s3];
      [|discriminate..].
    destruct (addCommandSpec platformH "platform" s3) as [[[]| |] s4];
      [|discriminate..].
    destruct (addCommandSpec healthH "health" s4) as [[[]| |] s5];
      [|discriminate..].
    unfold ret in Hrun. by injection Hrun as ->. }
  change ((modifyHandler (λ _, blankCommandHandler);; ?m) st) with (m st0).
  rewrite Hregs.
  set (acc := foldl registerEntry (specs st, ∅) (flatEntries regs)).
  set (hm := JsObject.mk _ objectPrototype).
  change ((setHandlerMap hm;; ?m) (withRegistry acc st0))
    with (m (mkApp (isConnected st)
                (mkCommandHandler hm None acc.2 []) acc.1 (node st)
                (trace st))).
  change ((gets commandHandler ≫= ?k) ?s) with (k (commandHandler s) s).
  cbv beta. cbn [commandHandler handlerMap].
  destruct (contextLoop_run hm (JsObject.keys (JsObject.own hm))
              (mkApp (isConnected st) (mkCommandHandler hm None acc.2 [])
                 acc.1 (node st) (trace st))) as [cmm ->].
  exists cmm. reflexivity.
Qed.

(** C3, as the specification words it, fails: two specs with the same
    id are registered and nothing fails; the later one takes the place
    of the earlier one. *)
Lemma C3_counterexample :
  (run (registerAll duplicateRegs) duplicateApp).1 = Returned tt
  ∧ CommandSpec.id <$> specs (run (registerAll duplicateRegs) duplicateApp).2 !! 0
    = Some "avm_send"
  ∧ CommandSpec.id <$> specs (run (registerAll duplicateRegs) duplicateApp).2 !! 1
    = Some "avm_send"
  ∧ commandSpecMap
      (commandHandler (run (registerAll duplicateRegs) duplicateApp).2)
    !! "avm_send" = Some 1.
Proof. vm_compute. done. Qed.

(** C3 (amended): registering Command Specs never fails on a duplicate
    id (context + "_" + name): each spec is stored under its id and the
    last one registered under an id is the one kept.  When the
    registered specs are distinct objects, every spec kept in the
    registry carries the id it is stored under, so their ids are
    pairwise distinct.  The constructor is such a sequence of
    registrations and ends with that registry. *)
Theorem C3_registration_overwrites
    (regs : list (handler * string)) (st : App) :
  commandSpecMap (commandHandler st) = ∅ →
  Forall (λ r, is_Some (specs st !! r)) (registeredRefs regs) →
  ∃ st',
    run (registerAll regs) st = (Returned tt, st')
    ∧ (∀ before k r after,
         registeredEntries regs = before ++ (k, r) :: after →
         k ∉ map fst after →
         commandSpecMap (commandHandler st') !! k = Some r)
    ∧ (NoDup (registeredRefs regs) →
       ∀ k1 k2 r1 r2 s1 s2,
         commandSpecMap (commandHandler st') !! k1 = Some r1 →
         commandSpecMap (commandHandler st') !! k2 = Some r2 →
         specs st' !! r1 = Some s1 →
         specs st' !! r2 = Some s2 →
         CommandSpec.id s1 = k1 ∧ CommandSpec.id s2 = k2
         ∧ (k1 ≠ k2 → CommandSpec.id s1 ≠ CommandSpec.id s2))
    ∧ (∀ infoH keystoreH avmH platformH healthH,
         regs = constructorRegs infoH keystoreH avmH platformH healthH →
         ∃ st'',
           run (newCommandHandler infoH keystoreH avmH platformH healthH) st
           = (Returned tt, st'')
           ∧ registryOf st'' = registryOf st').
Proof.
  intros Hempty Hall. eexists. split.
  { unfold run. rewrite <- (withRegistry_registryOf st) at 1.
    by apply registerAll_run. }
  split; [|split].
  - intros before k r after Hentries Hk. cbn [withRegistry commandHandler
      commandSpecMap].
    rewrite foldl_registerEntry_snd by done. cbn [registryOf snd].
    rewrite Hempty, (right_id_L ∅ (∪)), Hentries.
    rewrite reverse_app, reverse_cons, <- (assoc_L (++)), list_to_map_app.
    rewrite lookup_union_r.
    + cbn [app list_to_map foldr]. apply lookup_insert_eq.
    + apply not_elem_of_list_to_map_1. rewrite fmap_reverse, elem_of_reverse.
      exact Hk.
  - intros Hnd k1 k2 r1 r2 s1 s2 Hk1 Hk2 Hs1 Hs2.
    assert (keyedById (foldl registerEntry (registryOf st) (flatEntries regs)))
      as Hkeyed.
    { apply foldl_registerEntry_keyed.
      - by rewrite flatEntries_refs.
      - intros k r Hk. cbn [registryOf snd] in Hk.
        by rewrite Hempty, lookup_empty in Hk.
      - intros k r Hk. cbn [registryOf snd] in Hk.
        by rewrite Hempty, lookup_empty in Hk. }
    destruct (Hkeyed k1 r1 Hk1) as (s1' & Hs1' & Hid1).
    destruct (Hkeyed k2 r2 Hk2) as (s2' & Hs2' & Hid2).
    cbn [withRegistry specs] in Hs1, Hs2.
    rewrite Hs1 in Hs1'. rewrite Hs2 in Hs2'.
    injection Hs1' as <-. injection Hs2' as <-.
    repeat split; [done|done|congruence].
  - intros infoH keystoreH avmH platformH healthH ->.
    destruct (newCommandHandler_run infoH keystoreH avmH platformH healthH
                st Hall) as [cmm Hrun].
    eexists. split; [exact Hrun|].
    unfold registryOf at 1. cbn [specs commandHandler commandSpecMap].
    unfold registryOf. cbn [withRegistry specs commandHandler commandSpecMap].
    rewrite Hempty. by destruct (foldl registerEntry _ _).
Qed.

End Registry.

Lemma C3_witness :
  (∃ st',
     run (registerAll duplicateRegs) duplicateApp = (Returned tt, st')
     ∧ commandSpecMap (commandHandler st') !! "avm_send" = Some 1)
  ∧ (∃ st',
       run (registerAll sourceRegs) loadedApp = (Returned tt, st')
       ∧ ∀ r1 r2 s1 s2,
           commandSpecMap (commandHandler st') !! "avm_send" = Some r1 →
           commandSpecMap (commandHandler st') !! "platform_issueTx" = Some r2 →
           specs st' !! r1 = Some s1 →
           specs st' !! r2 = Some s2 →
           CommandSpec.id s1 ≠ CommandSpec.id s2).
Proof.
  split.
  - destruct (C3_registration_overwrites (H := scriptedNode)
                duplicateRegs duplicateApp) as (st' & Hrun & Hlast & _ & _).
    + reflexivity.
    + repeat constructor; vm_compute; eauto.
    + exists st'. split; [exact Hrun|].
      apply (Hlast [ ("avm_send", 0) ] "avm_send" 1 []); [reflexivity|].
      apply not_elem_of_nil.
  - destruct (C3_registration_overwrites (H := scriptedNode)
                sourceRegs loadedApp) as (st' & Hrun & _ & Hdistinct & _).
    + reflexivity.
    + apply Forall_forall. intros r Hr.
      apply (bool_decide_unpack _). revert r Hr.
      apply Forall_forall. apply (bool_decide_unpack _).
      vm_compute. exact I.
    + exists st'. split; [exact Hrun|].
      intros r1 r2 s1 s2 H1 H2 Hs1 Hs2.
      assert (NoDup (registeredRefs sourceRegs)) as Hnd.
      { apply (bool_decide_unpack _). vm_compute. exact I. }
      apply (Hdistinct Hnd
               "avm_send" "platform_issueTx" r1 r2 s1 s2 H1 H2 Hs1 Hs2).
      discriminate.
Defined.


(** ** Dispatch *)

Section Dispatching.

Context `{Collaborators}.

Lemma logged_trace (evs : list event) (st : App) :
  trace (logged evs st) = trace st ++ evs.
Proof. reflexivity. Qed.

(** [connectAvaNode] always returns; the first thing it does is to
    build the client from its three parameters, defaults applied. *)
Lemma connectAvaNode_run (address port protocol : Js.value) (st : App) :
  ∃ st' evs,
    connectAvaNode address port protocol st = (Returned tt, st')
    ∧ commandHandler st' = commandHandler st
    ∧ specs st' = specs st
    ∧ trace st'
      = trace st
        ++ NewAvalanche (Js.param_default address (Js.Str "127.0.0.1"))
             (Js.param_default port (Js.Num 9650))
             (Js.param_default protocol (Js.Str "http")) :: evs
    ∧ Forall (λ e, isInvoke e = false) evs.
Proof.
  unfold connectAvaNode, printNodeInfo. munfold. simpl.
  destruct (clientInit _ _ _ (node st)) as [[e|] w]; simpl.
  - do 2 eexists. split; [reflexivity|]. simpl.
    rewrite <- !app_assoc. simpl. repeat split. repeat constructor.
  - destruct (envKeystoreUser w) as [[e|] w']; simpl;
      do 2 eexists; (split; [reflexivity|]); simpl;
      rewrite <- !app_assoc; simpl; repeat split; repeat constructor.
Qed.

Lemma helpCond_true (params : list string) :
  (length params =? 1) && StringOps.eqStr (Js.index params 0) "help" = true
  ↔ params = [ "help" ].
Proof.
  destruct params as [|p [|q params]]; simpl; split; try done.
  - rewrite String.eqb_eq. by intros ->.
  - intros [= ->]. reflexivity.
Qed.

Lemma contextHelpCond_true (ch : CommandHandler) (params : list string) :
  (length params =? 2)
  && bool_decide (is_Some (isContext ch (Js.to_string (Js.index params 0))))
  && StringOps.eqStr (Js.index params 1) "help" = true
  ↔ ∃ c, params = [ c; "help" ] ∧ is_Some (isContext ch c).
Proof.
  destruct params as [|p [|q [|r params]]]; simpl; split;
    try done; try (by intros (c & [=] & _)).
  - rewrite andb_true_iff, bool_decide_eq_true, String.eqb_eq.
    intros [Hc ->]. eauto.
  - intros (c & [= -> ->] & Hc).
    rewrite andb_true_iff, bool_decide_eq_true, String.eqb_eq. done.
Qed.

Lemma connectCond_true (params : list string) :
  StringOps.eqStr (Js.index params 0) "connect" = true
  ↔ head params = Some "connect".
Proof.
  destruct params as [|p params]; simpl; [done|].
  rewrite String.eqb_eq. naive_solver.
Qed.

(** A line starting with [connect] reaches [connectAvaNode] with the
    elements 1, 2 and 3 of what is left after the shift. *)
Lemma handleCommand_connect (st : App) (cmd : string) (args : list string) :
  splitTokens cmd = "connect" :: args →
  ¬ (args = [ "help" ] ∧ is_Some (isContext (commandHandler st) "connect")) →
  run (handleCommand cmd) st
  = run (connectAvaNode (Js.index args 1) (Js.index args 2)
           (Js.index args 3)) st.
Proof.
  intros Htok Hnothelp. unfold run, handleCommand. rewrite Htok.
  change ((gets commandHandler ≫= ?k) st) with (k (commandHandler st) st).
  cbv beta.
  destruct ((length ("connect" :: args) =? 1) && _) eqn:E1.
  { apply helpCond_true in E1. discriminate. }
  destruct ((length ("connect" :: args) =? 2) && _ && _) eqn:E2.
  { apply contextHelpCond_true in E2 as (c & [= <- ->] & Hc).
    destruct Hnothelp. done. }
  reflexivity.
Qed.

Lemma handleCommand_resolved (st : App) (cmd c m : string)
    (args : list string) :
  resolved (commandHandler st) (splitTokens cmd) c m args →
  run (handleCommand cmd) st
  = run (dispatch (commandHandler st) (Js.Str c) (m :: args)) st.
Proof.
  intros [Hmeta Hres]. unfold run, handleCommand.
  change ((gets commandHandler ≫= ?k) st) with (k (commandHandler st) st).
  cbv beta.
  destruct (length (splitTokens cmd) <? 1) eqn:E0.
  { apply Nat.ltb_lt in E0. destruct Hres as [(_ & _ & Hp)|[_ Hp]];
      rewrite Hp in E0; simpl in E0; lia. }
  destruct ((length (splitTokens cmd) =? 1) && _) eqn:E1.
  { apply helpCond_true in E1. destruct Hmeta. by left. }
  destruct ((length (splitTokens cmd) =? 2) && _ && _) eqn:E2.
  { apply contextHelpCond_true in E2. destruct Hmeta. right. by left. }
  destruct (StringOps.eqStr (Js.index (splitTokens cmd) 0) "connect") eqn:E3.
  { apply connectCond_true in E3. destruct Hmeta. right. by right. }
  destruct Hres as [(Hactive & Hc & Hp)|[Hactive Hp]].
  - rewrite Hactive, Hp. simpl.
    destruct (String.eqb_spec c EmptyString) as [->|_]; [done|]. reflexivity.
  - rewrite Hactive, Hp. reflexivity.
Qed.

(** The [try]/[catch] around the call: whatever the method body does,
    [invoke] returns; a thrown value ends up in the log. *)
Lemma invoke_run (c m : string) (args : list string) (st : App) :
  invoke c m args st
  = (Returned tt,
     logged
       (Invoke c m args
        :: match (methodBody c m args (node st)).1 with
           | Some e => [ LogError e ]
           | None => []
           end)
       (withNode (methodBody c m args (node st)).2 st)).
Proof.
  unfold invoke. munfold. simpl.
  destruct (methodBody c m args (node st)) as [[e|] w]; simpl;
    unfold logged, withNode; simpl; by rewrite <- ?app_assoc.
Qed.

(** [dispatch] on a known context and method: the connectivity check,
    then the arity check, then the call. *)
Lemma dispatch_known (ch : CommandHandler) (c m : string)
    (args : list string) (h : handler) (st : App) :
  JsObject.get (handlerMap ch) c = Some h →
  member h m = true →
  dispatch ch (Js.Str c) (m :: args) st
  = if isConnected st
    then match getCommandSpec st c m with
         | Some commandSpec =>
             if CommandSpec.validateInput commandSpec args
             then invoke c m args st
             else (Returned tt,
                   logged (ConsoleLog "Invalid Arguments"
                           :: map ConsoleLog
                                (CommandSpec.printUsage commandSpec "Usage: "))
                     st)
         | None => invoke c m args st
         end
    else (Returned tt,
          logged [ ConsoleError "Node is disconnected";
                   ConsoleLog CONNECT_USAGE ] st).
Proof.
  intros Hh Hm. unfold dispatch. simpl. rewrite Hh, Hm. simpl.
  change ((gets isConnected ≫= ?k) st) with (k (isConnected st) st).
  cbv beta. destruct (isConnected st); simpl.
  - change ((gets id ≫= ?k) st) with (k st st). cbv beta.
    destruct (getCommandSpec st c m) as [commandSpec|]; [|done].
    destruct (CommandSpec.validateInput commandSpec args); simpl; [done|].
    mrun. unfold logged. simpl. by rewrite <- ?app_assoc.
  - mrun. unfold logged. simpl. by rewrite <- ?app_assoc.
Qed.

Lemma dispatch_unknown_method (ch : CommandHandler) (c m : string)
    (args : list string) (h : handler) (st : App) :
  JsObject.get (handlerMap ch) c = Some h →
  member h m = false →
  dispatch ch (Js.Str c) (m :: args) st
  = (Returned tt,
     logged [ ConsoleLog ("Unknown method " +:+ m +:+ " in context " +:+ c) ]
       st).
Proof. intros Hh Hm. unfold dispatch. simpl. by rewrite Hh, Hm. Qed.

Lemma fold_left_push {A} (l acc : list A) :
  fold_left (λ out x, out ++ [ x ]) l acc = acc ++ l.
Proof.
  revert acc. induction l as [|x l IH]; intros acc; simpl.
  - by rewrite app_nil_r.
  - by rewrite IH, <- app_assoc.
Qed.

(** C2 (amended): [getTopLevelCommands] returns the meta-commands
    [help], [exit] (and not [connect]) followed by all context names of
    [handlerMap] in the order they were entered; for the handler the
    constructor builds these are [info], [keystore], [avm], [platform],
    [health]. *)
Theorem C2_getTopLevelCommands :
  (∀ ch : CommandHandler,
     getTopLevelCommands ch
     = [ "help"; "exit" ] ++ JsObject.keys (JsObject.own (handlerMap ch)))
  ∧ (∀ (infoH keystoreH avmH platformH healthH : handler) (st : App),
       Forall (λ r, is_Some (specs st !! r))
         (registeredRefs
            (constructorRegs infoH keystoreH avmH platformH healthH)) →
       ∃ st',
         run (newCommandHandler infoH keystoreH avmH platformH healthH) st
         = (Returned tt, st')
         ∧ getTopLevelCommands (commandHandler st')
           = [ "help"; "exit"; "info"; "keystore"; "avm"; "platform";
               "health" ]).
Proof.
  split.
  - intros ch. unfold getTopLevelCommands. by rewrite !fold_left_push.
  - intros infoH keystoreH avmH platformH healthH st Hall.
    destruct (newCommandHandler_run infoH keystoreH avmH platformH healthH
                st Hall) as [cmm Hrun].
    eexists. split; [exact Hrun|]. reflexivity.
Qed.

(** C1 (the code departs from it): on a line whose first token is
    [connect], the token is shifted off and [connectAvaNode] is called
    with the elements 1, 2 and 3 of the remaining tokens, not 0, 1 and
    2: the first token after [connect] (the host) is dropped, the
    second is taken as address and the third as port.  The defaults
    127.0.0.1, 9650, http fill what is absent at those indices. *)
Theorem C1_connect_reads_from_index_one
    (st : App) (cmd : string) (args : list string) :
  splitTokens cmd = "connect" :: args →
  ¬ (args = [ "help" ] ∧ is_Some (isContext (commandHandler st) "connect")) →
  ∃ st' evs,
    run (handleCommand cmd) st = (Returned tt, st')
    ∧ trace st'
      = trace st
        ++ NewAvalanche
             (Js.param_default (Js.index args 1) (Js.Str "127.0.0.1"))
             (Js.param_default (Js.index args 2) (Js.Num 9650))
             (Js.param_default (Js.index args 3) (Js.Str "http")) :: evs
    ∧ (∀ host, args = [ host ] →
         trace st' !! length (trace st)
         = Some (NewAvalanche (Js.Str "127.0.0.1") (Js.Num 9650)
                   (Js.Str "http"))).
Proof.
  intros Htok Hnothelp.
  rewrite (handleCommand_connect st cmd args Htok Hnothelp). unfold run.
  destruct (connectAvaNode_run (Js.index args 1) (Js.index args 2)
              (Js.index args 3) st) as (st' & evs & Hrun & _ & _ & Htrace & _).
  exists st', evs. split; [exact Hrun|]. split; [exact Htrace|].
  intros host ->. rewrite Htrace. simpl.
  by rewrite lookup_app_r, Nat.sub_diag by lia.
Qed.

(** C4: for every dispatched non-meta command, when the connectivity
    flag is false [handleCommand] prints the disconnection message and
    the [connect] usage hint and returns; the resolved method is not
    invoked. *)
Theorem C4_disconnected_never_invokes
    (st : App) (cmd c m : string) (args : list string) :
  dispatched (commandHandler st) (splitTokens cmd) c m args →
  isConnected st = false →
  run (handleCommand cmd) st
  = (Returned tt,
     logged [ ConsoleError "Node is disconnected";
              ConsoleLog CONNECT_USAGE ] st)
  ∧ invocations (trace (run (handleCommand cmd) st).2)
    = invocations (trace st).
Proof.
  intros [Hres (h & Hh & Hm)] Hoff.
  assert (run (handleCommand cmd) st
          = (Returned tt,
             logged [ ConsoleError "Node is disconnected";
                      ConsoleLog CONNECT_USAGE ] st)) as Hrun.
  { rewrite (handleCommand_resolved st cmd c m args Hres). unfold run.
    rewrite (dispatch_known _ c m args h st Hh Hm). by rewrite Hoff. }
  split; [exact Hrun|].
  rewrite Hrun. cbn [snd]. rewrite logged_trace.
  unfold invocations. rewrite List.filter_app. simpl. apply app_nil_r.
Qed.

(** C5: for every command invocation, whatever the handler body
    raises (a failure of the node client included) is caught inside
    [handleCommand], logged and swallowed: [handleCommand] returns
    normally, the trace holds the call followed by the logged error,
    and the session state is as it was, so the session continues.  An
    unknown method is answered with a message, not an exception. *)
Theorem C5_handler_failure_swallowed :
  (∀ (st : App) (cmd c m : string) (args : list string)
     (r : option thrown) (w : World),
     dispatched (commandHandler st) (splitTokens cmd) c m args →
     isConnected st = true →
     accepted st c m args →
     methodBody c m args (node st) = (r, w) →
     run (handleCommand cmd) st
     = (Returned tt,
        logged
          (Invoke c m args
           :: match r with
              | Some e => [ LogError e ]
              | None => []
              end)
          (withNode w st)))
  ∧ (∀ (st : App) (cmd c m : string) (args : list string) (h : handler),
       resolved (commandHandler st) (splitTokens cmd) c m args →
       JsObject.get (handlerMap (commandHandler st)) c = Some h →
       member h m = false →
       run (handleCommand cmd) st
       = (Returned tt,
          logged
            [ ConsoleLog ("Unknown method " +:+ m +:+ " in context " +:+ c) ]
            st)).
Proof.
  split.
  - intros st cmd c m args r w [Hres (h & Hh & Hm)] Hon Hok Hbody.
    rewrite (handleCommand_resolved st cmd c m args Hres). unfold run.
    rewrite (dispatch_known _ c m args h st Hh Hm), Hon.
    rewrite invoke_run, Hbody. cbn [fst snd].
    destruct (getCommandSpec st c m) as [commandSpec|] eqn:Hspec; [|done].
    by rewrite (Hok commandSpec Hspec).
  - intros st cmd c m args h Hres Hh Hm.
    rewrite (handleCommand_resolved st cmd c m args Hres). unfold run.
    apply (dispatch_unknown_method _ c m args h st Hh Hm).
Qed.

End Dispatching.

(** C2, as the specification words it, fails: [connect] is not among
    the top-level commands of the handler the constructor builds. *)
Lemma C2_counterexample :
  getTopLevelCommands (commandHandler startedApp)
  ≠ listTopLevelSpec (commandHandler startedApp).
Proof. vm_compute. discriminate. Qed.

Lemma C1_witness :
  ∃ st' evs,
    run (handleCommand "connect 10.0.0.1 9999 https") startedApp
    = (Returned tt, st')
    ∧ trace st'
      = trace startedApp
        ++ NewAvalanche (Js.Str "9999") (Js.Str "https") (Js.Str "http")
           :: evs.
Proof.
  destruct (C1_connect_reads_from_index_one (H := scriptedNode)
              startedApp "connect 10.0.0.1 9999 https"
              [ "10.0.0.1"; "9999"; "https" ] eq_refl)
    as (st' & evs & Hrun & Htrace & _).
  - intros [Hhelp _]. discriminate.
  - exists st', evs. split; [exact Hrun|exact Htrace].
Defined.

Lemma C4_witness :
  run (handleCommand "info nodeId") (withConnected false startedApp)
  = (Returned tt,
     logged [ ConsoleError "Node is disconnected"; ConsoleLog CONNECT_USAGE ]
       (withConnected false startedApp)).
Proof.
  apply (C4_disconnected_never_invokes (H := scriptedNode)
           (withConnected false startedApp) "info nodeId" "info" "nodeId" []).
  - split; [split|].
    + intros [Hhelp|[(c & Hc & _)|Hconnect]]; vm_compute in *; discriminate.
    + right. split; reflexivity.
    + eexists. split; reflexivity.
  - reflexivity.
Defined.

Lemma C5_witness :
  run (handleCommand "health getLiveness") startedApp
  = (Returned tt,
     logged [ Invoke "health" "getLiveness" [];
              LogError (Error "Error" "connection refused") ]
       (withNode (H := scriptedNode) tt startedApp))
  ∧ run (handleCommand "keystore bogus") startedApp
    = (Returned tt,
       logged [ ConsoleLog "Unknown method bogus in context keystore" ]
         startedApp).
Proof.
  destruct (C5_handler_failure_swallowed (H := scriptedNode))
    as (Hthrow & Hunknown).
  assert (∀ p q : string, p ≠ "help" → q ≠ "help" → p ≠ "connect" →
          ¬ metaCommand (commandHandler startedApp) [ p; q ]) as Hmeta.
  { intros p q Hp Hq Hc [Hhelp|[(c & Heq & _)|Hconnect]].
    - discriminate.
    - injection Heq as -> ->. done.
    - injection Hconnect as ->. done. }
  split.
  - apply (Hthrow startedApp "health getLiveness" "health" "getLiveness" []
             (Some (Error "Error" "connection refused")) tt).
    + split; [split|].
      * apply Hmeta; discriminate.
      * right. split; reflexivity.
      * eexists. split; reflexivity.
    + reflexivity.
    + intros commandSpec Hspec. vm_compute in Hspec.
      injection Hspec as <-. reflexivity.
    + reflexivity.
  - eapply (Hunknown startedApp "keystore bogus" "keystore" "bogus" []).
    + split.
      * apply Hmeta; discriminate.
      * right. split; reflexivity.
    + reflexivity.
    + reflexivity.
Defined.

(** ** The shell's evaluator *)

Section Shell.

Context `{Collaborators}.

Lemma truthy_Str (s : string) : Js.truthy (Js.Str s) = true ↔ s ≠ EmptyString.
Proof.
  simpl. rewrite negb_true_iff. destruct (String.eqb_spec s EmptyString); naive_solver.
Qed.

(** C7: evaluating [exit] (surrounding white space aside) while a
    context is active sets the active context back to null, resets the
    prompt and does not terminate the process; evaluating it when no
    context is active terminates the process. *)
Theorem C7_exit (st : App) (cmd : string) :
  StringOps.trim cmd = "exit" →
  (∀ c, activeContext (commandHandler st) = Some c → c ≠ EmptyString →
     run (evalHandler cmd) st
     = (Returned tt,
        logged [ LogInfo "eval exit"; SetPrompt "ava> "; Callback Js.Null ]
          (withActiveContext None st)))
  ∧ (Js.truthy (Js.of_field (activeContext (commandHandler st))) = false →
     run (evalHandler cmd) st
     = (Exited, logged [ LogInfo "eval exit" ] st)).
Proof.
  intros Htrim. unfold run, evalHandler. rewrite Htrim. split.
  - intros c Hc Hne. apply truthy_Str in Hne.
    mrun. rewrite Hc. simpl in *. rewrite Hne.
    unfold updatePrompt. mrun. unfold logged, withActiveContext. simpl.
    by rewrite <- !app_assoc.
  - intros Hc. mrun. rewrite Hc. reflexivity.
Qed.




End Shell.

Lemma C7_witness :
  run (evalHandler " exit ") (withActiveContext (Some "platform") startedApp)
  = (Returned tt,
     logged [ LogInfo "eval exit"; SetPrompt "ava> "; Callback Js.Null ]
       (withActiveContext None
          (withActiveContext (Some "platform") startedApp)))
  ∧ run (evalHandler "exit") startedApp
    = (Exited, logged [ LogInfo "eval exit" ] startedApp).
Proof.
  split.
  - destruct (C7_exit (H := scriptedNode)
                (withActiveContext (Some "platform") startedApp) " exit "
                eq_refl) as [Hactive _].
    apply (Hactive "platform"); [reflexivity|discriminate].
  - destruct (C7_exit (H := scriptedNode) startedApp "exit" eq_refl)
      as [_ Htop].
    apply Htop. reflexivity.
Defined.



Lemma C2_witness :
  ∃ st',
    run (newCommandHandler
           (infoHandler sourceHandlers) (keystoreHandler sourceHandlers)
           (avmHandler sourceHandlers) (platformHandler sourceHandlers)
           (healthHandler sourceHandlers)) loadedApp
    = (Returned tt, st')
    ∧ getTopLevelCommands (commandHandler st')
      = [ "help"; "exit"; "info"; "keystore"; "avm"; "platform"; "health" ].
Proof.
  destruct (C2_getTopLevelCommands (H := scriptedNode)) as [_ Hnew].
  apply Hnew.
  apply (bool_decide_unpack _). vm_compute. exact I.
Defined.

(** * Further properties of the code *)

(** ** What the constructor leaves in [contextMethodMap] *)

Section Listing.

Context `{Collaborators}.

Lemma assoc_assign_eq {V} (l : list (string * V)) (k : string) (v : V) :
  JsObject.assoc (JsObject.assign l k v) k = Some v.
Proof.
  induction l as [|[k' v'] l IH]; simpl.
  - by rewrite String.eqb_refl.
  - destruct (String.eqb k' k) eqn:E; simpl; rewrite E; [done|apply IH].
Qed.

Lemma assign_assign {V} (l : list (string * V)) (k : string) (v v' : V) :
  JsObject.assign (JsObject.assign l k v) k v' = JsObject.assign l k v'.
Proof.
  induction l as [|[k' w] l IH]; simpl.
  - by rewrite String.eqb_refl.
  - destruct (String.eqb k' k) eqn:E; simpl; rewrite E; [done|by rewrite IH].
Qed.

Lemma assign_id {V} (l : list (string * V)) (k : string) (v : V) :
  JsObject.assoc l k = Some v → JsObject.assign l k v = l.
Proof.
  induction l as [|[k' w] l IH]; simpl; [done|].
  destruct (String.eqb k' k); [by intros [= ->]|].
  intros Hv. by rewrite IH.
Qed.

(** The inner loop appends the listed names to the entry of [context]. *)
Lemma methodLoop_exact (context : string) (l ms : list string) (st : App) :
  JsObject.assoc (contextMethodMap (commandHandler st)) context = Some ms →
  forEach l (λ m,
    if StringOps.startsWith m "_" then mret tt
    else setContextMethodMap (pushMethod context m)) st
  = (Returned tt,
     withContextMethodMap
       (JsObject.assign (contextMethodMap (commandHandler st)) context
          (ms ++ List.filter (λ m, negb (StringOps.startsWith m "_")) l))
       st).
Proof.
  revert ms st. induction l as [|m l IH]; intros ms st Hms.
  - cbn [forEach List.filter]. unfold ret. rewrite app_nil_r. f_equal.
    rewrite (assign_id _ _ _ Hms). by destruct st as [? [] ? ? ?].
  - cbn [forEach List.filter]. unfold bind at 1.
    destruct (StringOps.startsWith m "_"); cbn [negb].
    + by apply IH.
    + cbn. unfold pushMethod. rewrite Hms.
      rewrite (IH (ms ++ [ m ])).
      * unfold withContextMethodMap. cbn.
        by rewrite assign_assign, <- app_assoc.
      * cbn. apply assoc_assign_eq.
Qed.

(** One round of the outer loop, for a key that [handlerMap] owns. *)
Lemma contextLoop_step_exact (hm : JsObject.t handler) (context : string)
    (h : handler) (st : App) :
  JsObject.get hm context = Some h →
  (setContextMethodMap (λ cmm, JsObject.assign cmm context []);;
   match JsObject.get hm context with
   | Some h =>
       forEach (enumerable h) (λ m,
         if StringOps.startsWith m "_" then mret tt
         else setContextMethodMap (pushMethod context m))
   | None => mret tt
   end) st
  = (Returned tt,
     withContextMethodMap
       (JsObject.assign (contextMethodMap (commandHandler st)) context
          (listedMethods h)) st).
Proof.
  intros ->. unfold mbind, M_bind, bind at 1. cbn.
  rewrite (methodLoop_exact context (enumerable h) []).
  - unfold withContextMethodMap. cbn. by rewrite assign_assign.
  - cbn. apply assoc_assign_eq.
Qed.

(** The outer loop over any keys of [handlerMap]. *)
Lemma contextLoop_exact (hm : JsObject.t handler) (keys : list string)
    (st : App) :
  forEach keys (λ context,
    setContextMethodMap (λ cmm, JsObject.assign cmm context []);;
    match JsObject.get hm context with
    | Some h =>
        forEach (enumerable h) (λ m,
          if StringOps.startsWith m "_" then mret tt
          else setContextMethodMap (pushMethod context m))
    | None => mret tt
    end) st
  = (Returned tt,
     withContextMethodMap
       (foldl (λ cmm context,
                 JsObject.assign cmm context
                   (from_option listedMethods [] (JsObject.get hm context)))
          (contextMethodMap (commandHandler st)) keys) st).
Proof.
  revert st. induction keys as [|context keys IH]; intros st.
  - cbn [forEach foldl]. unfold ret. by rewrite withContextMethodMap_id.
  - cbn [forEach foldl]. unfold bind at 1.
    destruct (JsObject.get hm context) as [h|] eqn:Hh.
    + pose proof (contextLoop_step_exact hm context h st Hh) as Hstep.
      rewrite Hh in Hstep. rewrite Hstep. rewrite IH. reflexivity.
    + unfold mbind, M_bind, bind. cbn. rewrite IH. reflexivity.
Qed.

(** The constructor, with the [contextMethodMap] it computes. *)
Lemma newCommandHandler_exact
    (infoH keystoreH avmH platformH healthH : handler) (st : App) :
  Forall (λ r, is_Some (specs st !! r))
    (registeredRefs
       (constructorRegs infoH keystoreH avmH platformH healthH)) →
  run (newCommandHandler infoH keystoreH avmH platformH healthH) st
  = (Returned tt,
     let acc :=
       foldl registerEntry (specs st, ∅)
         (flatEntries
            (constructorRegs infoH keystoreH avmH platformH healthH)) in
     mkApp (isConnected st)
       (mkCommandHandler
          (JsObject.mk
             [ ("info", infoH); ("keystore", keystoreH); ("avm", avmH);
               ("platform", platformH); ("health", healthH) ]
             objectPrototype)
          None acc.2
          [ ("info", listedMethods infoH);
            ("keystore", listedMethods keystoreH);
            ("avm", listedMethods avmH);
            ("platform", listedMethods platformH);
            ("health", listedMethods healthH) ])
       acc.1 (node st) (trace st)).
Proof.
  intros Hall. unfold run, newCommandHandler.
  set (regs := constructorRegs infoH keystoreH avmH platformH healthH) in *.
  set (st0 := mkApp (isConnected st) blankCommandHandler (specs st)
                (node st) (trace st)).
  assert (∀ rest : M unit,
    (addCommandSpec keystoreH "keystore";;
     addCommandSpec infoH "info";;
     addCommandSpec avmH "avm";;
     addCommandSpec platformH "platform";;
     addCommandSpec healthH "health";; rest) st0
    = rest (withRegistry
              (foldl registerEntry (specs st, ∅) (flatEntries regs)) st0))
    as Hregs.
  { intros rest.
    pose proof (registerAll_run regs (specs st, ∅) st0 Hall) as Hrun.
    unfold registerAll, regs, constructorRegs in Hrun.
    cbn [forEach fst snd] in Hrun.
    change (withRegistry (specs st, ∅) st0) with st0 in Hrun.
    unfold mbind, M_bind. unfold bind in Hrun |- *.
    destruct (addCommandSpec keystoreH "keystore" st0) as [[[]| |] s1];
      [|discriminate..].
    destruct (addCommandSpec infoH "info" s1) as [[[]| |] s2];
      [|discriminate..].
    destruct (addCommandSpec avmH "avm" s2) as [[[]| |] s3];
      [|discriminate..].
    destruct (addCommandSpec platformH "platform" s3) as [[[]| |] s4];
      [|discriminate..].
    destruct (addCommandSpec healthH "health" s4) as [[[]| |] s5];
      [|discriminate..].
    unfold ret in Hrun. by injection Hrun as ->. }
  change ((modifyHandler (λ _, blankCommandHandler);; ?m) st) with (m st0).
  rewrite Hregs.
  set (acc := foldl registerEntry (specs st, ∅) (flatEntries regs)).
  set (hm := JsObject.mk _ objectPrototype).
  change ((setHandlerMap hm;; ?m) (withRegistry acc st0))
    with (m (mkApp (isConnected st)
                (mkCommandHandler hm None acc.2 []) acc.1 (node st)
                (trace st))).
  change ((gets commandHandler ≫= ?k) ?s) with (k (commandHandler s) s).
  cbv beta. cbn [commandHandler handlerMap].
  rewrite contextLoop_exact. reflexivity.
Qed.

End Listing.

Section ListingFacts.

Context `{Collaborators}.

Lemma getContextCommands_own (ch : CommandHandler) (c : string)
    (cmds : list string) :
  JsObject.assoc (contextMethodMap ch) c = Some cmds →
  getContextCommands ch c = Returned (cmds ++ [ "help"; "exit" ]).
Proof.
  intros Hc. unfold getContextCommands. rewrite Hc.
  by rewrite !fold_left_push.
Qed.

Lemma listedMethods_visible (h : handler) :
  Forall (λ m, StringOps.startsWith m "_" = false) (listedMethods h).
Proof.
  apply Forall_forall. intros m Hm.
  apply list_elem_of_In, List.filter_In in Hm as [_ Hm].
  by apply negb_true_iff.
Qed.


(** The five entries the constructor leaves in [contextMethodMap]. *)
Lemma listing_own (infoH keystoreH avmH platformH healthH : handler)
    (c : string) (h : handler) :
  (c, h) ∈ [ ("info", infoH); ("keystore", keystoreH); ("avm", avmH);
             ("platform", platformH); ("health", healthH) ] →
  JsObject.assoc
    [ ("info", listedMethods infoH); ("keystore", listedMethods keystoreH);
      ("avm", listedMethods avmH); ("platform", listedMethods platformH);
      ("health", listedMethods healthH) ] c
  = Some (listedMethods h)
  ∧ JsObject.assoc
      [ ("info", infoH); ("keystore", keystoreH); ("avm", avmH);
        ("platform", platformH); ("health", healthH) ] c
    = Some h.
Proof.
  intros Hc. rewrite !elem_of_cons, elem_of_nil in Hc.
  destruct Hc as [Hc|[Hc|[Hc|[Hc|[Hc|[]]]]]];
    injection Hc as -> ->; split; reflexivity.
Qed.

Lemma listing_other {V} (v1 v2 v3 v4 v5 : V) (c : string) :
  c ∉ [ "info"; "keystore"; "avm"; "platform"; "health" ] →
  JsObject.assoc
    [ ("info", v1); ("keystore", v2); ("avm", v3); ("platform", v4);
      ("health", v5) ] c
  = None.
Proof.
  intros Hc. rewrite !elem_of_cons, elem_of_nil in Hc. cbn [JsObject.assoc].
  repeat match goal with
         | |- context [String.eqb ?k c] =>
             destruct (String.eqb_spec k c) as [<-|_]; [naive_solver|]
         end.
  reflexivity.
Qed.

Lemma listing_context (infoH keystoreH avmH platformH healthH : handler)
    (c : string) :
  c ∈ [ "info"; "keystore"; "avm"; "platform"; "health" ] →
  ∃ h, (c, h) ∈ [ ("info", infoH); ("keystore", keystoreH); ("avm", avmH);
                  ("platform", platformH); ("health", healthH) ].
Proof.
  intros Hc. rewrite !elem_of_cons, elem_of_nil in Hc.
  destruct Hc as [-> | [-> | [-> | [-> | [-> | []]]]]];
    eexists; apply list_elem_of_In; simpl; eauto 10.
Qed.

(** X1: after construction, the commands of each of the five contexts
    are the members of its handler that a [for ... in] yields and whose
    name does not start with an underscore, in that order, followed by
    [help] and [exit]; a name that is neither a context nor inherited
    from [Object.prototype] gets [help], [exit] alone; no listed
    command starts with an underscore. *)
Theorem X1_context_commands_after_construction
    (infoH keystoreH avmH platformH healthH : handler) (st : App) :
  Forall (λ r, is_Some (specs st !! r))
    (registeredRefs
       (constructorRegs infoH keystoreH avmH platformH healthH)) →
  ∃ st',
    run (newCommandHandler infoH keystoreH avmH platformH healthH) st
    = (Returned tt, st')
    ∧ (∀ c h,
         (c, h) ∈ [ ("info", infoH); ("keystore", keystoreH); ("avm", avmH);
                    ("platform", platformH); ("health", healthH) ] →
         getContextCommands (commandHandler st') c
         = Returned (listedMethods h ++ [ "help"; "exit" ]))
    ∧ (∀ c,
         c ∉ [ "info"; "keystore"; "avm"; "platform"; "health" ] →
         objectPrototype c = None →
         getContextCommands (commandHandler st') c
         = Returned [ "help"; "exit" ])
    ∧ (∀ c cmds,
         getContextCommands (commandHandler st') c = Returned cmds →
         Forall (λ m, StringOps.startsWith m "_" = false) cmds).
Proof.
  intros Hall. eexists. split; [by apply newCommandHandler_exact|].
  cbv zeta. cbn [commandHandler].
  split; [|split].
  - intros c h Hc. apply getContextCommands_own. cbn.
    by apply (listing_own infoH keystoreH avmH platformH healthH).
  - intros c Hc Hplain. unfold getContextCommands. cbn [contextMethodMap].
    by rewrite (listing_other _ _ _ _ _ c Hc), Hplain.
  - intros c cmds Hcmds.
    unfold getContextCommands in Hcmds. cbn [contextMethodMap] in Hcmds.
    destruct (decide (c ∈ [ "info"; "keystore"; "avm"; "platform";
                            "health" ])) as [Hin|Hout].
    + destruct (listing_context infoH keystoreH avmH platformH healthH c Hin)
        as [h Hh].
      destruct (listing_own _ _ _ _ _ c h Hh) as [Hown _].
      rewrite Hown, !fold_left_push in Hcmds.
      injection Hcmds as <-. apply Forall_app. split.
      * apply listedMethods_visible.
      * by repeat constructor.
    + rewrite (listing_other _ _ _ _ _ c Hout) in Hcmds.
      destruct (objectPrototype c); [discriminate|].
      injection Hcmds as <-. by repeat constructor.
Qed.

(** X2: a member whose name starts with an underscore is left out of
    the commands of its context, yet [handleCommand] resolves and
    invokes it like any other member. *)
Theorem X2_underscore_members_hidden_but_callable
    (infoH keystoreH avmH platformH healthH : handler) (st : App) :
  Forall (λ r, is_Some (specs st !! r))
    (registeredRefs
       (constructorRegs infoH keystoreH avmH platformH healthH)) →
  isConnected st = true →
  ∃ st',
    run (newCommandHandler infoH keystoreH avmH platformH healthH) st
    = (Returned tt, st')
    ∧ ∀ c h m,
        (c, h) ∈ [ ("info", infoH); ("keystore", keystoreH); ("avm", avmH);
                   ("platform", platformH); ("health", healthH) ] →
        member h m = true →
        StringOps.startsWith m "_" = true →
        (∀ cmds, getContextCommands (commandHandler st') c = Returned cmds →
                 m ∉ cmds)
        ∧ (∀ cmd args r w,
             splitTokens cmd = c :: m :: args →
             accepted st' c m args →
             methodBody c m args (node st') = (r, w) →
             run (handleCommand cmd) st'
             = (Returned tt,
                logged
                  (Invoke c m args
                   :: match r with
                      | Some e => [ LogError e ]
                      | None => []
                      end)
                  (withNode w st'))).
Proof.
  intros Hall Hon. eexists. split; [by apply newCommandHandler_exact|].
  cbv zeta.
  set (st' := mkApp _ _ _ _ _).
  intros c h m Hc Hm Hunder.
  destruct (listing_own _ _ _ _ _ c h Hc) as [Hlisted Hhandler]. split.
  - intros cmds Hcmds Hin.
    rewrite (getContextCommands_own _ c (listedMethods h)) in Hcmds
      by exact Hlisted.
    injection Hcmds as <-. apply elem_of_app in Hin as [Hin|Hin].
    + pose proof (listedMethods_visible h) as Hvis.
      rewrite Forall_forall in Hvis. specialize (Hvis m Hin). congruence.
    + rewrite !elem_of_cons, elem_of_nil in Hin.
      destruct Hin as [-> | [-> | []]]; discriminate.
  - intros cmd args r w Htok Hok Hbody.
    assert (Hres : resolved (commandHandler st') (splitTokens cmd) c m args).
    { rewrite Htok. split.
      - intros [Hp|[(c' & Hp & _)|Hp]].
        + discriminate.
        + injection Hp as -> -> ->. discriminate.
        + injection Hp as ->. rewrite !elem_of_cons, elem_of_nil in Hc.
          destruct Hc as [Hc|[Hc|[Hc|[Hc|[Hc|[]]]]]]; discriminate.
      - right. split; [|done]. reflexivity. }
    rewrite (handleCommand_resolved st' cmd c m args Hres). unfold run.
    rewrite (dispatch_known _ c m args h st').
    + change (isConnected st') with (isConnected st). rewrite Hon.
      rewrite invoke_run, Hbody. cbn [fst snd].
      destruct (getCommandSpec st' c m) as [commandSpec|] eqn:Hspec; [|done].
      by rewrite (Hok commandSpec Hspec).
    + unfold JsObject.get. cbn [st' commandHandler handlerMap JsObject.own].
      by rewrite Hhandler.
    + exact Hm.
Qed.

End ListingFacts.

(** ** Ids and the registry *)

Section Ids.

Context `{Collaborators}.

Lemma append_cons (a : Ascii.ascii) (s t : string) :
  String a s +:+ t = String a (s +:+ t).
Proof. reflexivity. Qed.

Lemma underscoreFree_cons (a : Ascii.ascii) (s : string) :
  underscoreFree (String a s) = true →
  String a EmptyString ≠ "_" ∧ underscoreFree s = true.
Proof.
  cbn [underscoreFree]. intros [Ha Hs]%andb_true_iff. split; [|done].
  intros [= ->]. vm_compute in Ha. discriminate.
Qed.

(** The separator is found at the end of an underscore-free context. *)
Lemma append_underscore_inj (c1 c2 n1 n2 : string) :
  underscoreFree c1 = true →
  underscoreFree c2 = true →
  c1 +:+ "_" +:+ n1 = c2 +:+ "_" +:+ n2 →
  c1 = c2 ∧ n1 = n2.
Proof.
  revert c2. induction c1 as [|a c1 IH]; intros [|b c2] H1 H2 Heq.
  - by injection Heq.
  - rewrite append_cons in Heq. injection Heq as <- _.
    by apply underscoreFree_cons in H2 as [[] _].
  - rewrite append_cons in Heq. injection Heq as -> _.
    by apply underscoreFree_cons in H1 as [[] _].
  - rewrite !append_cons in Heq. injection Heq as -> Heq.
    apply underscoreFree_cons in H1 as [_ H1].
    apply underscoreFree_cons in H2 as [_ H2].
    destruct (IH c2 H1 H2 Heq) as [-> ->]. done.
Qed.

Lemma string_app_assoc (s1 s2 s3 : string) :
  (s1 +:+ s2) +:+ s3 = s1 +:+ (s2 +:+ s3).
Proof.
  induction s1 as [|a s1 IH]; [done|].
  rewrite !append_cons. by rewrite IH.
Qed.

(** X3: the id of a registered spec is its context, an underscore and
    its name.  Between contexts without underscore, as the five of the
    source, equal ids mean equal context and equal name; with an
    underscore in a context two different commands can share an id. *)
Theorem X3_id_determines_context_and_name :
  (∀ (s : CommandSpec.t) (n c : string),
     CommandSpec.id (registeredAs s n c) = c +:+ "_" +:+ n)
  ∧ (∀ (s1 s2 : CommandSpec.t) (n1 n2 c1 c2 : string),
       underscoreFree c1 = true →
       underscoreFree c2 = true →
       CommandSpec.id (registeredAs s1 n1 c1)
       = CommandSpec.id (registeredAs s2 n2 c2) →
       c1 = c2 ∧ n1 = n2)
  ∧ (∀ (s1 s2 : CommandSpec.t) (a b c : string),
       CommandSpec.id (registeredAs s1 c (a +:+ "_" +:+ b))
       = CommandSpec.id (registeredAs s2 (b +:+ "_" +:+ c) a)).
Proof.
  split; [done|]. split.
  - intros s1 s2 n1 n2 c1 c2 H1 H2 Hid.
    by apply append_underscore_inj.
  - intros s1 s2 a b c. unfold CommandSpec.id, registeredAs. cbn.
    by rewrite !string_app_assoc.
Qed.

Lemma registeredEntries_cons (obj : handler) (c : string)
    (regs : list (handler * string)) :
  registeredEntries ((obj, c) :: regs)
  = map (λ e, (c +:+ "_" +:+ e.1, e.2)) (metadata obj)
    ++ registeredEntries regs.
Proof. reflexivity. Qed.

Lemma flatEntries_cons (obj : handler) (c : string)
    (regs : list (handler * string)) :
  flatEntries ((obj, c) :: regs)
  = map (λ e, (c, e.1, e.2)) (metadata obj) ++ flatEntries regs.
Proof. reflexivity. Qed.

Lemma registeredEntries_elem (regs : list (handler * string))
    (k : string) (r : nat) :
  (k, r) ∈ registeredEntries regs
  ↔ ∃ obj c n, (obj, c) ∈ regs ∧ (n, r) ∈ metadata obj
               ∧ k = c +:+ "_" +:+ n.
Proof.
  induction regs as [|[obj c] regs IH].
  - split; [by intros ?%elem_of_nil|].
    by intros (? & ? & ? & ?%elem_of_nil & _).
  - rewrite registeredEntries_cons, elem_of_app, IH. split.
    + intros [Hin|(obj' & c' & n & Hreg & Hn & Hk)].
      * apply list_elem_of_In, in_map_iff in Hin as ([n r'] & [= <- <-] & Hin).
        apply list_elem_of_In in Hin.
        exists obj, c, n. rewrite elem_of_cons. eauto.
      * exists obj', c', n. rewrite elem_of_cons. eauto.
    + intros (obj' & c' & n & Hreg & Hn & ->).
      apply elem_of_cons in Hreg as [[= -> ->]|Hreg].
      * left. apply list_elem_of_In, in_map_iff. exists (n, r).
        split; [done|]. by apply list_elem_of_In.
      * right. eauto 10.
Qed.

Lemma flatEntries_elem (regs : list (handler * string))
    (c n : string) (r : nat) :
  (c, n, r) ∈ flatEntries regs
  ↔ ∃ obj, (obj, c) ∈ regs ∧ (n, r) ∈ metadata obj.
Proof.
  induction regs as [|[obj c'] regs IH].
  - split; [by intros ?%elem_of_nil|].
    by intros (? & ?%elem_of_nil & _).
  - rewrite flatEntries_cons, elem_of_app, IH. split.
    + intros [Hin|(obj' & Hreg & Hn)].
      * apply list_elem_of_In, in_map_iff in Hin
          as ([n' r'] & [= <- <- <-] & Hin).
        apply list_elem_of_In in Hin.
        exists obj. rewrite elem_of_cons. eauto.
      * exists obj'. rewrite elem_of_cons. eauto.
    + intros (obj' & Hreg & Hn).
      apply elem_of_cons in Hreg as [[= -> ->]|Hreg].
      * left. apply list_elem_of_In, in_map_iff. exists (n, r).
        split; [done|]. by apply list_elem_of_In.
      * right. eauto.
Qed.

(** No two entries share an id when the contexts are distinct and
    underscore-free and no handler has a property decorated twice. *)
Lemma registeredEntries_keys_NoDup (regs : list (handler * string)) :
  NoDup (map snd regs) →
  Forall (λ reg, underscoreFree reg.2 = true
                 ∧ NoDup (map fst (metadata reg.1))) regs →
  NoDup (map fst (registeredEntries regs)).
Proof.
  induction regs as [|[obj c] regs IH]; intros Hctx Hall; [constructor|].
  cbn [map snd] in Hctx. apply NoDup_cons in Hctx as [Hc Hctx].
  inversion Hall as [|? ? [Hfree Hnames] Hrest]; subst. cbn [fst snd] in *.
  rewrite registeredEntries_cons, map_app. apply NoDup_app. split; [|split].
  - rewrite map_map. cbn [fst].
    clear -Hnames. induction (metadata obj) as [|[n r] l IHl]; [constructor|].
    cbn [map fst] in *. apply NoDup_cons in Hnames as [Hn Hnames].
    apply NoDup_cons. split; [|by apply IHl].
    intros Hin. apply Hn. apply list_elem_of_In, in_map_iff in Hin
      as ([n' r'] & Heq & Hin). cbn [fst] in Heq.
    apply (inj (String.app c)), (inj (String.app "_")) in Heq. subst n'.
    apply list_elem_of_In, in_map_iff. exists (n, r'). by split.
  - intros k Hk1 Hk2.
    apply list_elem_of_In, in_map_iff in Hk1 as ([k1 r1] & <- & Hk1).
    apply in_map_iff in Hk1 as ([n1 r1'] & [= <- <-] & _).
    apply list_elem_of_In, in_map_iff in Hk2 as ([k2 r2] & Heq & Hk2).
    cbn [fst] in Heq. subst k2.
    apply list_elem_of_In, registeredEntries_elem in Hk2
      as (obj' & c' & n' & Hreg & _ & Heq).
    rewrite Forall_forall in Hrest.
    destruct (Hrest _ Hreg) as [Hfree' _]. cbn [snd] in Hfree'.
    destruct (append_underscore_inj _ _ _ _ Hfree Hfree' Heq) as [-> _].
    apply Hc. apply list_elem_of_In, in_map_iff. exists (obj', c').
    split; [done|]. by apply list_elem_of_In.
  - by apply IH.
Qed.

Lemma registerEntry_other (acc : gmap nat CommandSpec.t * gmap string nat)
    (e : string * string * nat) (r : nat) :
  e.2 ≠ r → (registerEntry acc e).1 !! r = acc.1 !! r.
Proof.
  destruct e as [[c n] r']. cbn [snd]. intros Hne. unfold registerEntry.
  destruct (acc.1 !! r'); [|done]. cbn [fst]. by rewrite lookup_insert_ne.
Qed.

Lemma foldl_registerEntry_other (es : list (string * string * nat))
    (acc : gmap nat CommandSpec.t * gmap string nat) (r : nat) :
  r ∉ map snd es → (foldl registerEntry acc es).1 !! r = acc.1 !! r.
Proof.
  revert acc. induction es as [|e es IH]; intros acc Hr; [done|].
  cbn [foldl map] in *. apply not_elem_of_cons in Hr as [Hne Hr].
  rewrite IH by done. by apply registerEntry_other.
Qed.

(** An object registered once ends up with the name and context of
    that registration. *)
Lemma foldl_registerEntry_store (es : list (string * string * nat))
    (acc : gmap nat CommandSpec.t * gmap string nat)
    (c n : string) (r : nat) (s0 : CommandSpec.t) :
  NoDup (map snd es) →
  (c, n, r) ∈ es →
  acc.1 !! r = Some s0 →
  (foldl registerEntry acc es).1 !! r = Some (registeredAs s0 n c).
Proof.
  revert acc. induction es as [|e es IH]; intros acc Hnd Hin Hs0.
  - by apply elem_of_nil in Hin.
  - cbn [foldl map] in *. apply NoDup_cons in Hnd as [Hfresh Hnd].
    apply elem_of_cons in Hin as [<-|Hin].
    + rewrite foldl_registerEntry_other by done.
      unfold registerEntry. cbn [snd]. rewrite Hs0. cbn [fst].
      apply lookup_insert_eq.
    + apply IH; [done..|].
      rewrite registerEntry_other; [done|].
      intros Heq. apply Hfresh. rewrite Heq.
      apply list_elem_of_In, in_map_iff. exists (c, n, r).
      split; [done|]. by apply list_elem_of_In.
Qed.

(** X4: after construction every decorated command is found again:
    [getCommandSpec(context, name)] returns the spec object of the
    decorator, carrying that name and context.  Nothing is overwritten
    among the five contexts. *)
Theorem X4_every_decorated_command_is_registered
    (infoH keystoreH avmH platformH healthH : handler) (st : App) :
  let regs := constructorRegs infoH keystoreH avmH platformH healthH in
  Forall (λ r, is_Some (specs st !! r)) (registeredRefs regs) →
  NoDup (registeredRefs regs) →
  Forall (λ reg, NoDup (map fst (metadata reg.1))) regs →
  ∃ st',
    run (newCommandHandler infoH keystoreH avmH platformH healthH) st
    = (Returned tt, st')
    ∧ ∀ obj c n r s0,
        (obj, c) ∈ regs →
        (n, r) ∈ metadata obj →
        specs st !! r = Some s0 →
        getCommandSpec st' c n = Some (registeredAs s0 n c).
Proof.
  intros regs Hall Hnd Hnames.
  destruct (newCommandHandler_run infoH keystoreH avmH platformH healthH
              st Hall) as [cmm Hrun].
  eexists. split; [exact Hrun|].
  intros obj c n r s0 Hreg Hn Hs0. fold regs.
  set (acc := foldl registerEntry (specs st, ∅) (flatEntries regs)).
  unfold getCommandSpec. cbn [commandHandler commandSpecMap specs].
  assert (acc.2 !! (c +:+ "_" +:+ n) = Some r) as ->.
  { unfold acc. rewrite foldl_registerEntry_snd by done.
    cbn [snd]. rewrite (right_id_L ∅ (∪)).
    apply elem_of_list_to_map_1.
    - rewrite fmap_reverse, reverse_Permutation.
      apply registeredEntries_keys_NoDup.
      + apply (bool_decide_unpack _). vm_compute. exact I.
      + apply Forall_and. split; [by repeat constructor|exact Hnames].
    - apply elem_of_reverse, registeredEntries_elem. eauto 10. }
  cbn [mbind option_bind]. apply foldl_registerEntry_store.
  - by rewrite flatEntries_refs.
  - apply flatEntries_elem. eauto.
  - exact Hs0.
Qed.

End Ids.

(** ** Completion *)

Section Completing.

Context `{Collaborators}.

Lemma getCompletions_prefix (needle : string) (haystack : list string) :
  Forall (λ c, StringOps.startsWith c needle = true)
    (getCompletions needle haystack).
Proof.
  apply Forall_forall. intros c Hc.
  by apply list_elem_of_In, List.filter_In in Hc as [_ Hc].
Qed.

Lemma getCompletions_all (haystack : list string) :
  getCompletions EmptyString haystack = haystack.
Proof.
  unfold getCompletions. induction haystack as [|c l IH]; [done|].
  cbn [List.filter].
  assert (StringOps.startsWith c EmptyString = true) as ->
    by (by destruct c).
  by rewrite IH.
Qed.

(** X5: whatever [completer] returns, every completion starts with the
    token it returns beside them, and that token is the last token of
    the line unless nothing is offered; every completion is one of the
    candidates, in their order; an empty needle matches every
    candidate. *)
Theorem X5_completions_start_with_the_token :
  (∀ (ch : CommandHandler) (line : string) (comps : list string)
     (tok : string),
     completer ch line = Returned (Some (comps, tok)) →
     Forall (λ c, StringOps.startsWith c tok = true) comps
     ∧ ((comps = [] ∧ tok = EmptyString) ∨ last (splitTokens line) = Some tok))
  ∧ (∀ (needle : string) (haystack : list string),
       getCompletions needle haystack `sublist_of` haystack
       ∧ ∀ c, c ∈ getCompletions needle haystack
              ↔ c ∈ haystack ∧ StringOps.startsWith c needle = true)
  ∧ (∀ haystack : list string,
       getCompletions EmptyString haystack = haystack).
Proof.
  split; [|split].
  - intros ch line comps tok. unfold completer.
    destruct (splitTokens line) as [|p0 [|p1 [|p2 params]]];
      destruct (negb (Js.truthy (Js.of_field (activeContext ch))));
      try destruct (getContextCommands ch _);
      intros [= <- <-] || discriminate;
      (split; [first [apply getCompletions_prefix | constructor]|]);
      first [by left | by right].
  - intros needle haystack. split.
    + unfold getCompletions.
      induction haystack as [|c l IH]; cbn [List.filter]; [done|].
      destruct (StringOps.startsWith c needle).
      * by apply sublist_skip.
      * by apply sublist_cons.
    + intros c. unfold getCompletions.
      by rewrite list_elem_of_In, List.filter_In, <- list_elem_of_In.
  - apply getCompletions_all.
Qed.

(** X6: the corners of [completer]: an empty line offers nothing; at
    top level a line of three or more tokens ends without a result
    (the function returns undefined); inside a context a line of two or
    more tokens offers nothing; at top level the second token of a line
    whose first token has no entry in [contextMethodMap], own or
    inherited, is completed against [help] and [exit] alone. *)
Theorem X6_completer_corners (ch : CommandHandler) (line : string) :
  (splitTokens line = [] →
   completer ch line = Returned (Some ([], EmptyString)))
  ∧ (Js.truthy (Js.of_field (activeContext ch)) = false →
     3 ≤ length (splitTokens line) →
     completer ch line = Returned None)
  ∧ (Js.truthy (Js.of_field (activeContext ch)) = true →
     2 ≤ length (splitTokens line) →
     completer ch line = Returned (Some ([], EmptyString)))
  ∧ (∀ p0 p1,
       Js.truthy (Js.of_field (activeContext ch)) = false →
       splitTokens line = [ p0; p1 ] →
       JsObject.assoc (contextMethodMap ch) p0 = None →
       objectPrototype p0 = None →
       completer ch line
       = Returned (Some (getCompletions p1 [ "help"; "exit" ], p1))).
Proof.
  unfold completer. split; [|split; [|split]].
  - by intros ->.
  - intros -> Hlen.
    destruct (splitTokens line) as [|p0 [|p1 [|p2 params]]];
      simpl in Hlen; try lia. reflexivity.
  - intros -> Hlen.
    destruct (splitTokens line) as [|p0 [|p1 params]];
      simpl in Hlen; try lia. reflexivity.
  - intros p0 p1 -> -> Hp0 Hplain. cbn [negb].
    unfold getContextCommands. by rewrite Hp0, Hplain.
Qed.

End Completing.

(** ** The other paths through [handleCommand] *)

Section Paths.

Context `{Collaborators}.

(** X7: an empty line, and at top level a lone token other than [help]
    and [connect] (a context name included), get the basic usage hint
    on the error stream and nothing else happens. *)
Theorem X7_basic_usage_hint (st : App) (cmd : string) :
  (splitTokens cmd = []
   ∨ ∃ p, splitTokens cmd = [ p ]
          ∧ Js.truthy (Js.of_field (activeContext (commandHandler st))) = false
          ∧ p ≠ "help" ∧ p ≠ "connect") →
  run (handleCommand cmd) st = (Returned tt, logged [ ConsoleError
         "Invalid command. Type help to see all supported commands" ] st).
Proof.
  unfold run, handleCommand.
  change ((gets commandHandler ≫= ?k) st) with (k (commandHandler st) st).
  cbv beta. intros [->|(p & -> & Hactive & Hhelp & Hconnect)]; [done|].
  cbn [length Nat.ltb Nat.leb Nat.eqb andb Js.index lookup list_lookup
         Js.of_field StringOps.eqStr].
  destruct (String.eqb_spec p "help") as [->|_]; [done|].
  destruct (String.eqb_spec p "connect") as [->|_]; [done|].
  rewrite Hactive. reflexivity.
Qed.

(** X8: a line whose context is not known is answered with "Unknown
    context or command"; nothing is invoked and nothing else changes. *)
Theorem X8_unknown_context
    (st : App) (cmd c m : string) (args : list string) :
  resolved (commandHandler st) (splitTokens cmd) c m args →
  JsObject.get (handlerMap (commandHandler st)) c = None →
  run (handleCommand cmd) st
  = (Returned tt, logged [ ConsoleLog "Unknown context or command" ] st).
Proof.
  intros Hres Hc. rewrite (handleCommand_resolved st cmd c m args Hres).
  unfold run, dispatch. cbn [Js.to_string]. by rewrite Hc.
Qed.

(** X9: on a connected session, a dispatched command that has a spec
    and fewer arguments than its required fields is not invoked:
    "Invalid Arguments" and the usage of the command are printed. *)
Theorem X9_too_few_arguments
    (st : App) (cmd c m : string) (args : list string)
    (commandSpec : CommandSpec.t) :
  dispatched (commandHandler st) (splitTokens cmd) c m args →
  isConnected st = true →
  getCommandSpec st c m = Some commandSpec →
  length args < CommandSpec.countRequiredFields commandSpec →
  run (handleCommand cmd) st
  = (Returned tt,
     logged
       [ ConsoleLog "Invalid Arguments";
         ConsoleLog ("Usage: " +:+ CommandSpec.usageLine commandSpec);
         ConsoleLog ("Usage: " +:+ "- "
                     +:+ CommandSpec.description commandSpec);
         ConsoleLog EmptyString ] st)
  ∧ invocations (trace (run (handleCommand cmd) st).2)
    = invocations (trace st).
Proof.
  intros [Hres (h & Hh & Hm)] Hon Hspec Hlen.
  assert (run (handleCommand cmd) st
          = (Returned tt,
             logged
               [ ConsoleLog "Invalid Arguments";
                 ConsoleLog ("Usage: " +:+ CommandSpec.usageLine commandSpec);
                 ConsoleLog ("Usage: " +:+ "- "
                             +:+ CommandSpec.description commandSpec);
                 ConsoleLog EmptyString ] st)) as Hrun.
  { rewrite (handleCommand_resolved st cmd c m args Hres). unfold run.
    rewrite (dispatch_known _ c m args h st Hh Hm), Hon, Hspec.
    unfold CommandSpec.validateInput.
    by rewrite (proj2 (Nat.ltb_lt _ _) Hlen). }
  split; [exact Hrun|]. rewrite Hrun. cbn [snd]. rewrite logged_trace.
  unfold invocations. rewrite List.filter_app. apply app_nil_r.
Qed.

Lemma filter_only (t : string) (l : list string) :
  NoDup l → t ∈ l → List.filter (String.eqb t) l = [ t ].
Proof.
  induction l as [|x l IH]; intros Hnd Hin; [by apply elem_of_nil in Hin|].
  apply NoDup_cons in Hnd as [Hx Hnd]. cbn [List.filter].
  destruct (String.eqb_spec t x) as [<-|Hne].
  - f_equal. clear -Hx. induction l as [|y l IHl]; [done|].
    apply not_elem_of_cons in Hx as [Hne Hx]. cbn [List.filter].
    destruct (String.eqb_spec t y); [done|by apply IHl].
  - apply IH; [done|]. by apply elem_of_cons in Hin as [->|Hin].
Qed.

Lemma filter_none (t : string) (l : list string) :
  t ∉ l → List.filter (String.eqb t) l = [].
Proof.
  induction l as [|x l IH]; intros Hin; [done|].
  apply not_elem_of_cons in Hin as [Hne Hin]. cbn [List.filter].
  destruct (String.eqb_spec t x); [done|by apply IH].
Qed.

Lemma helpContexts_target (ch : CommandHandler) (t : string) :
  t ≠ EmptyString →
  helpContexts ch (Some t)
  = List.filter (String.eqb t)
      (StringOps.sort (JsObject.keys (contextMethodMap ch))).
Proof.
  intros Ht. unfold helpContexts. apply List.filter_ext. intros c.
  cbn [Js.of_field Js.truthy StringOps.eqStr].
  destruct (String.eqb_spec t EmptyString) as [->|_]; [done|].
  cbn [negb andb]. by rewrite negb_involutive.
Qed.

(** X10: the help of one context: [printHelp(target)] on a target with
    an entry in [contextMethodMap] prints the header and the block of
    that context only; on a target without entry it prints the header
    alone; the session is otherwise unchanged. *)
Theorem X10_help_of_one_context (st : App) (t : string) :
  t ≠ EmptyString →
  NoDup (JsObject.keys (contextMethodMap (commandHandler st))) →
  (t ∈ JsObject.keys (contextMethodMap (commandHandler st)) →
   run (printHelp (Some t)) st
   = (Returned tt,
      logged (map ConsoleLog (helpHeader ++ helpBlock st t)) st))
  ∧ (t ∉ JsObject.keys (contextMethodMap (commandHandler st)) →
     run (printHelp (Some t)) st
     = (Returned tt, logged (map ConsoleLog helpHeader) st)).
Proof.
  intros Ht Hnd.
  assert (StringOps.orElse (Some t) (activeContext (commandHandler st))
          = Some t) as Htarget.
  { unfold StringOps.orElse. cbn [Js.of_field Js.truthy].
    by destruct (String.eqb_spec t EmptyString). }
  unfold run. rewrite (proj1 (prints_printHelp (Some t) st)), Htarget.
  unfold helpLines. rewrite (helpContexts_target _ t Ht). split; intros Hin.
  - rewrite filter_only.
    + cbn [map mjoin list_join]. by rewrite app_nil_r.
    + unfold StringOps.sort. by rewrite merge_sort_Permutation.
    + unfold StringOps.sort. by rewrite merge_sort_Permutation.
  - rewrite filter_none.
    + cbn [map mjoin list_join]. by rewrite app_nil_r.
    + unfold StringOps.sort. by rewrite merge_sort_Permutation.
Qed.

(** X11: the two help lines.  [help] prints the help of the active
    context, or of all contexts at top level; [<context> help] prints
    the help of that context whatever the active context is.  Neither
    changes the session: the active context stays what it was. *)
Theorem X11_help_lines (st : App) (cmd : string) :
  (splitTokens cmd = [ "help" ] →
   run (handleCommand cmd) st
   = (Returned tt,
      logged
        (map ConsoleLog
           (helpLines st (activeContext (commandHandler st)))) st))
  ∧ (∀ c, splitTokens cmd = [ c; "help" ] →
          is_Some (isContext (commandHandler st) c) →
          c ≠ EmptyString →
          run (handleCommand cmd) st
          = (Returned tt,
             logged (map ConsoleLog (helpLines st (Some c))) st)).
Proof.
  unfold run, handleCommand.
  change ((gets commandHandler ≫= ?k) st) with (k (commandHandler st) st).
  cbv beta. split.
  - intros ->.
    cbn [length Nat.ltb Nat.leb Nat.eqb andb Js.index lookup list_lookup
           Js.of_field StringOps.eqStr].
    change (String.eqb "help" "help") with true. cbv iota.
    exact (proj1 (prints_printHelp None st)).
  - intros c -> Hc Hne.
    cbn [length Nat.ltb Nat.leb Nat.eqb andb Js.index lookup list_lookup
           Js.of_field StringOps.eqStr Js.to_string].
    rewrite (bool_decide_eq_true_2 _ Hc).
    change (String.eqb "help" "help") with true. cbn [andb].
    rewrite (proj1 (prints_printHelp (Some c) st)).
    unfold StringOps.orElse. cbn [Js.of_field Js.truthy].
    by destruct (String.eqb_spec c EmptyString).
Qed.

End Paths.

(** ** Connecting, and what [handleCommand] leaves alone *)

Section Frame.

Context `{Collaborators}.

(** The lines [printNodeInfo] prints for a connected node. *)
Lemma connectAvaNode_exact (address port protocol : Js.value) (st : App) :
  connectAvaNode address port protocol st
  = let a := Js.param_default address (Js.Str "127.0.0.1") in
    let p := Js.param_default port (Js.Num 9650) in
    let q := Js.param_default protocol (Js.Str "http") in
    let info w :=
      map ConsoleLog
        [ BANNER; "AVA shell initialized."; EmptyString;
          "Node ID: " +:+ nodeId w; "Node Address: " +:+ nodeAddress w;
          BANNER ] in
    let failed e :=
      ConsoleError ("Failed to connect to AVA node. " +:+ thrown_toString e) in
    match clientInit a p q (node st) with
    | (Some e, w1) =>
        (Returned tt, afterCommand false w1 [ NewAvalanche a p q; failed e ] st)
    | (None, w1) =>
        match envKeystoreUser w1 with
        | (None, w2) =>
            (Returned tt,
             afterCommand true w2 (NewAvalanche a p q :: info w1) st)
        | (Some e, w2) =>
            (Returned tt,
             afterCommand false w2
               (NewAvalanche a p q :: info w1 ++ [ failed e ]) st)
        end
    end.
Proof.
  unfold connectAvaNode, printNodeInfo. munfold. simpl.
  destruct (clientInit _ _ _ (node st)) as [[e|] w]; simpl.
  - unfold afterCommand. by rewrite <- !app_assoc.
  - destruct (envKeystoreUser w) as [[e|] w']; simpl;
      unfold afterCommand; by rewrite <- !app_assoc.
Qed.

(** X12: [connectAvaNode] always returns, and the connectivity flag it
    leaves does not depend on the flag before: it is true exactly when
    the client initialisation and the keystore-user step both return.
    A failure is reported on the error stream; when the second step
    fails the node information has already been printed.  The
    defaults 127.0.0.1, 9650, http replace the parameters that are
    undefined. *)
Theorem X12_connect_sets_the_flag
    (address port protocol : Js.value) (st : App) :
  let a := Js.param_default address (Js.Str "127.0.0.1") in
  let p := Js.param_default port (Js.Num 9650) in
  let q := Js.param_default protocol (Js.Str "http") in
  ∃ w evs,
    run (connectAvaNode address port protocol) st
    = (Returned tt,
       afterCommand
         (bool_decide
            ((clientInit a p q (node st)).1 = None
             ∧ (envKeystoreUser (clientInit a p q (node st)).2).1 = None))
         w (NewAvalanche a p q :: evs) st)
    ∧ (∀ e, (clientInit a p q (node st)).1 = Some e →
            evs = [ ConsoleError ("Failed to connect to AVA node. "
                                  +:+ thrown_toString e) ])
    ∧ (∀ e, (clientInit a p q (node st)).1 = None →
            (envKeystoreUser (clientInit a p q (node st)).2).1 = Some e →
            last evs = Some (ConsoleError ("Failed to connect to AVA node. "
                                           +:+ thrown_toString e))).
Proof.
  intros a p q. subst a p q. unfold run.
  rewrite connectAvaNode_exact. cbv zeta.
  destruct (clientInit _ _ _ (node st)) as [[e|] w1]; cbn [fst snd].
  - eexists _, _. split; [reflexivity|]. split; [|done].
    by intros e' [= <-].
  - destruct (envKeystoreUser w1) as [[e|] w2]; cbn [fst snd];
      eexists _, _; (split; [reflexivity|]); split; try done.
    intros e' _ [= <-]. by rewrite last_snoc.
Qed.

Lemma Forall_map_ConsoleLog (lines : list string) :
  Forall (λ e, isShellEvent e = false) (map ConsoleLog lines)
  ∧ invocations (map ConsoleLog lines) = [].
Proof.
  induction lines as [|l ls [IH1 IH2]]; [by split; [constructor|]|].
  split; [by constructor|exact IH2].
Qed.

Lemma dispatch_frame (ch : CommandHandler) (context : Js.value)
    (params : list string) (st : App) :
  ∃ w evs,
    dispatch ch context params st
    = (Returned tt, afterCommand (isConnected st) w evs st)
    ∧ Forall (λ e, isShellEvent e = false) evs
    ∧ length (invocations evs) ≤ 1.
Proof.
  unfold dispatch.
  destruct (JsObject.get (handlerMap ch) (Js.to_string context)) as [h|].
  2: { eexists _, _. split; [reflexivity|]. by repeat constructor. }
  destruct (member h _); cbn [negb].
  2: { eexists _, _. split; [reflexivity|]. by repeat constructor. }
  change ((gets isConnected ≫= ?k) st) with (k (isConnected st) st).
  cbv beta. destruct (isConnected st) eqn:Hon; cbn [negb].
  2: { exists (node st), [ ConsoleError "Node is disconnected";
                            ConsoleLog CONNECT_USAGE ].
       split; [|by repeat constructor].
       mrun. unfold afterCommand. by rewrite Hon, <- app_assoc. }
  change ((gets id ≫= ?k) st) with (k st st). cbv beta.
  assert (∀ c m args, ∃ w evs,
            invoke c m args st
            = (Returned tt, afterCommand true w evs st)
            ∧ Forall (λ e, isShellEvent e = false) evs
            ∧ length (invocations evs) ≤ 1) as Hinvoke.
  { intros c m args. rewrite invoke_run.
    eexists _, _. split.
    - unfold logged, withNode, afterCommand. cbn. by rewrite Hon.
    - destruct (methodBody c m args (node st)).1; by repeat constructor. }
  destruct (getCommandSpec st _ _) as [commandSpec|]; [|apply Hinvoke].
  destruct (CommandSpec.validateInput commandSpec _); cbn [negb];
    [apply Hinvoke|].
  exists (node st),
    (ConsoleLog "Invalid Arguments"
     :: map ConsoleLog (CommandSpec.printUsage commandSpec "Usage: ")).
  split; [|by repeat constructor].
  mrun. unfold afterCommand. by rewrite Hon, <- !app_assoc.
Qed.

(** What [handleCommand] can and cannot change, on every line; that it
    returns rests on property reads returning, as everywhere in the
    model. *)
Lemma handleCommand_frame (cmd : string) (st : App) :
  ∃ b w evs,
    run (handleCommand cmd) st = (Returned tt, afterCommand b w evs st)
    ∧ Forall (λ e, isShellEvent e = false) evs
    ∧ length (invocations evs) ≤ 1
    ∧ (head (splitTokens cmd) ≠ Some "connect" → b = isConnected st).
Proof.
  unfold run, handleCommand.
  change ((gets commandHandler ≫= ?k) st) with (k (commandHandler st) st).
  cbv beta.
  destruct (length (splitTokens cmd) <? 1).
  { eexists _, _, _. split; [reflexivity|]. by repeat constructor. }
  destruct (_ && _).
  { rewrite (proj1 (prints_printHelp None st)).
    eexists _, _, _. split; [reflexivity|].
    destruct (Forall_map_ConsoleLog
                (helpLines st
                   (StringOps.orElse None (activeContext (commandHandler st)))))
      as [Hshell Hinv].
    rewrite Hinv. repeat split; [exact Hshell|cbn; lia]. }
  destruct (_ && _ && _).
  { rewrite (proj1 (prints_printHelp _ st)).
    eexists _, _, _. split; [reflexivity|].
    destruct (Forall_map_ConsoleLog
                (helpLines st
                   (StringOps.orElse (splitTokens cmd !! 0)
                      (activeContext (commandHandler st)))))
      as [Hshell Hinv].
    rewrite Hinv. repeat split; [exact Hshell|cbn; lia]. }
  destruct (StringOps.eqStr _ _) eqn:Hconnect.
  { apply connectCond_true in Hconnect.
    rewrite connectAvaNode_exact. cbv zeta.
    destruct (clientInit _ _ _ (node st)) as [[e|] w1].
    - eexists _, _, _. split; [reflexivity|]. by repeat constructor.
    - destruct (envKeystoreUser w1) as [[e|] w2];
        eexists _, _, _; (split; [reflexivity|]); by repeat constructor. }
  assert (∀ context params, ∃ b w evs,
            dispatch (commandHandler st) context params st
            = (Returned tt, afterCommand b w evs st)
            ∧ Forall (λ e, isShellEvent e = false) evs
            ∧ length (invocations evs) ≤ 1
            ∧ (head (splitTokens cmd) ≠ Some "connect" → b = isConnected st))
    as Hdispatch.
  { intros context params.
    destruct (dispatch_frame (commandHandler st) context params st)
      as (w & evs & -> & Hshell & Hinv).
    by exists (isConnected st), w, evs. }
  destruct (negb _); [|apply Hdispatch].
  destruct (length (splitTokens cmd) <? 2); [|apply Hdispatch].
  eexists _, _, _. split; [reflexivity|]. by repeat constructor.
Qed.

(** X13: whatever the line, [handleCommand] leaves the command
    handler and the registered specifications as they were, never
    ends the process, produces no event of the shell proper (prompt,
    callback), invokes at most one handler method, and changes the
    connectivity flag on a [connect] line only. *)
Theorem X13_handleCommand_leaves_the_session
    (cmd : string) (st st' : App) (o : outcome unit) :
  run (handleCommand cmd) st = (o, st') →
  o ≠ Exited
  ∧ commandHandler st' = commandHandler st
  ∧ specs st' = specs st
  ∧ (∃ evs, trace st' = trace st ++ evs
            ∧ Forall (λ e, isShellEvent e = false) evs
            ∧ length (invocations evs) ≤ 1)
  ∧ (head (splitTokens cmd) ≠ Some "connect" →
     isConnected st' = isConnected st).
Proof.
  destruct (handleCommand_frame cmd st) as (b & w & evs & Hrun & Hs & Hi & Hb).
  rewrite Hrun. intros [= <- <-].
  repeat split; [done|by exists evs|exact Hb].
Qed.

(** X14: a [connect] line whose client initialisation fails leaves the
    session disconnected, even if it was connected before, so that a
    command dispatched next is refused without being invoked. *)
Theorem X14_failed_connect_then_command
    (st : App) (cmd1 cmd2 c m : string) (args1 args2 : list string)
    (e : thrown) (w : World) :
  splitTokens cmd1 = "connect" :: args1 →
  ¬ (args1 = [ "help" ]
     ∧ is_Some (isContext (commandHandler st) "connect")) →
  clientInit
    (Js.param_default (Js.index args1 1) (Js.Str "127.0.0.1"))
    (Js.param_default (Js.index args1 2) (Js.Num 9650))
    (Js.param_default (Js.index args1 3) (Js.Str "http")) (node st)
  = (Some e, w) →
  dispatched (commandHandler st) (splitTokens cmd2) c m args2 →
  run (handleCommand cmd1;; handleCommand cmd2) st
  = (Returned tt,
     afterCommand false w
       [ NewAvalanche
           (Js.param_default (Js.index args1 1) (Js.Str "127.0.0.1"))
           (Js.param_default (Js.index args1 2) (Js.Num 9650))
           (Js.param_default (Js.index args1 3) (Js.Str "http"));
         ConsoleError ("Failed to connect to AVA node. "
                       +:+ thrown_toString e);
         ConsoleError "Node is disconnected";
         ConsoleLog CONNECT_USAGE ] st).
Proof.
  intros Htok Hnothelp Hinit [Hres (h & Hh & Hm)].
  unfold run, mbind, M_bind, bind.
  pose proof (handleCommand_connect st cmd1 args1 Htok Hnothelp) as H1.
  unfold run in H1. rewrite H1, connectAvaNode_exact. cbv zeta.
  rewrite Hinit.
  set (st1 := afterCommand false w _ st).
  pose proof (handleCommand_resolved st1 cmd2 c m args2 Hres) as H2.
  unfold run in H2. rewrite H2.
  rewrite (dispatch_known (commandHandler st1) c m args2 h st1 Hh Hm).
  cbn [st1 afterCommand isConnected]. unfold logged, afterCommand. cbn.
  by rewrite <- app_assoc.
Qed.

End Frame.

(** ** The evaluator, line by line *)

Section Evaluating.

Context `{Collaborators}.

(** [evalHandler] as a case distinction on the trimmed line. *)
Lemma evalHandler_cases (cmd : string) (st : App) :
  let a := StringOps.trim cmd in
  let ch := commandHandler st in
  run (evalHandler cmd) st
  = if negb (Js.truthy (Js.Str a))
    then (Returned tt, logged [ Callback Js.Null ] st)
    else if String.eqb a "exit"
    then
      if Js.truthy (Js.of_field (activeContext ch))
      then (Returned tt,
            logged [ LogInfo ("eval " +:+ a); SetPrompt "ava> ";
                     Callback Js.Null ] (withActiveContext None st))
      else (Exited, logged [ LogInfo ("eval " +:+ a) ] st)
    else if bool_decide (is_Some (isContext ch a))
            && negb (StringOps.eqStr (Js.of_field (activeContext ch)) a)
    then (Returned tt,
          logged [ LogInfo ("eval " +:+ a);
                   SetPrompt ("ava " +:+ a +:+ "> ");
                   Callback Js.Null ] (withActiveContext (Some a) st))
    else
      match run (handleCommand a) (logged [ LogInfo ("eval " +:+ a) ] st) with
      | (Returned _, st') => (Returned tt, logged [ Callback Js.Undefined ] st')
      | (Threw e, st') =>
          (Returned tt,
           logged
             [ LogError e;
               Callback
                 (if Js.truthy (Js.Str (thrown_message e))
                  then Js.Str ("Error: " +:+ thrown_message e)
                  else Js.Str "Unexpected error") ] st')
      | (Exited, st') => (Exited, st')
      end.
Proof.
  intros a ch. unfold run, evalHandler, tryCatch. fold a.
  destruct (Js.truthy (Js.Str a)) eqn:Ha; cbn [negb]; [|done].
  rewrite (bind_returned _ _ _ _ _ (emit_run _ st)).
  change ((gets commandHandler ≫= ?k) ?s) with (k (commandHandler s) s).
  cbv beta. cbn [logged commandHandler]. fold ch.
  destruct (String.eqb a "exit").
  { destruct (Js.truthy (Js.of_field (activeContext ch))) eqn:Hactive.
    - unfold updatePrompt. mrun. unfold logged, withActiveContext. cbn.
      by rewrite <- !app_assoc.
    - reflexivity. }
  destruct (bool_decide _ && negb _).
  { unfold updatePrompt. mrun. simpl in Ha. rewrite Ha.
    unfold logged, withActiveContext. cbn. by rewrite <- !app_assoc. }
  unfold mbind, M_bind, bind, run.
  destruct (handleCommand a _) as [[[]|e|] st']; [reflexivity| |reflexivity].
  mrun. destruct (negb (String.eqb (thrown_message e) EmptyString));
    unfold logged; cbn; by rewrite <- !app_assoc.
Qed.

Lemma trimStart_blank (s : string) :
  blank s = true → StringOps.trimStart s = EmptyString.
Proof.
  induction s as [|a s IH]; [done|]. cbn [blank StringOps.trimStart].
  intros [-> Hs]%andb_true_iff. by apply IH.
Qed.

(** X15: a line of white space only (the empty line included) is
    answered by the callback alone: nothing is logged, nothing is
    dispatched and the session is unchanged. *)
Theorem X15_blank_line (st : App) (cmd : string) :
  blank cmd = true →
  run (evalHandler cmd) st = (Returned tt, logged [ Callback Js.Null ] st).
Proof.
  intros Hblank. rewrite evalHandler_cases. cbv zeta.
  unfold StringOps.trim. by rewrite (trimStart_blank cmd Hblank).
Qed.

Lemma evalHandler_enter (st : App) (cmd a : string) :
  StringOps.trim cmd = a →
  a ≠ EmptyString →
  a ≠ "exit" →
  is_Some (isContext (commandHandler st) a) →
  activeContext (commandHandler st) ≠ Some a →
  run (evalHandler cmd) st
  = (Returned tt,
     logged [ LogInfo ("eval " +:+ a);
              SetPrompt ("ava " +:+ a +:+ "> ");
              Callback Js.Null ] (withActiveContext (Some a) st)).
Proof.
  intros Htrim Hne Hexit Hctx Hactive. rewrite evalHandler_cases. cbv zeta.
  rewrite Htrim. cbn [Js.truthy].
  destruct (String.eqb_spec a EmptyString) as [->|_]; [done|]. cbn [negb].
  destruct (String.eqb_spec a "exit") as [->|_]; [done|].
  rewrite (bool_decide_eq_true_2 _ Hctx). cbn [andb].
  destruct (StringOps.eqStr _ a) eqn:Heq; [|done].
  by apply eqStr_of_field in Heq.
Qed.

(** X16: a line that is the name of a known context other than the
    active one enters that context, from top level as from any other
    context: the active context becomes that name and the prompt shows
    it; no command is dispatched. *)
Theorem X16_entering_a_context (st : App) (cmd a : string) :
  StringOps.trim cmd = a →
  a ≠ EmptyString →
  a ≠ "exit" →
  is_Some (isContext (commandHandler st) a) →
  activeContext (commandHandler st) ≠ Some a →
  run (evalHandler cmd) st
  = (Returned tt,
     logged [ LogInfo ("eval " +:+ a);
              SetPrompt ("ava " +:+ a +:+ "> ");
              Callback Js.Null ] (withActiveContext (Some a) st)).
Proof. apply evalHandler_enter. Qed.

(** X17: entering a context from top level and typing [exit] leads
    back to top level: apart from the trace, the session is what it
    was, and the process is still running. *)
Theorem X17_enter_then_exit (st : App) (cmd1 cmd2 a : string) :
  activeContext (commandHandler st) = None →
  StringOps.trim cmd1 = a →
  a ≠ EmptyString →
  a ≠ "exit" →
  is_Some (isContext (commandHandler st) a) →
  StringOps.trim cmd2 = "exit" →
  run (evalHandler cmd1;; evalHandler cmd2) st
  = (Returned tt,
     logged [ LogInfo ("eval " +:+ a);
              SetPrompt ("ava " +:+ a +:+ "> ");
              Callback Js.Null;
              LogInfo "eval exit";
              SetPrompt "ava> ";
              Callback Js.Null ] st).
Proof.
  intros Htop Htrim Hne Hexit Hctx Htrim2.
  unfold run, mbind, M_bind, bind.
  pose proof (evalHandler_enter st cmd1 a Htrim Hne Hexit Hctx) as H1.
  unfold run in H1. rewrite H1 by (by rewrite Htop).
  pose proof (evalHandler_cases cmd2
                (logged [ LogInfo ("eval " +:+ a);
                          SetPrompt ("ava " +:+ a +:+ "> ");
                          Callback Js.Null ]
                   (withActiveContext (Some a) st))) as H2.
  cbv zeta in H2. unfold run in H2. rewrite H2, Htrim2.
  cbn [Js.truthy negb logged withActiveContext commandHandler activeContext
         Js.of_field].
  change (String.eqb "exit" EmptyString) with false.
  change (String.eqb "exit" "exit") with true. cbn [negb].
  destruct (String.eqb_spec a EmptyString) as [->|_]; [done|]. cbn [negb].
  unfold logged, withActiveContext. cbn. rewrite <- !app_assoc. cbn.
  destruct st as [? [] ? ? ?]. cbn in *. by rewrite Htop.
Qed.

Lemma callbacks_none (evs : list event) :
  Forall (λ e, isShellEvent e = false) evs →
  List.filter isCallback evs = [].
Proof.
  induction 1 as [|e evs He _ IH]; [done|]. cbn [List.filter].
  by destruct e.
Qed.

(** X18: every evaluated ASCII line is answered by exactly one call of
    the callback, unless the process exits, which only happens on
    [exit] at top level and then without any callback.  (Awaited calls
    settle: a handler method returns or throws.) *)
Theorem X18_one_callback_per_line (cmd : string) (st : App) :
  StringOps.isAscii cmd = true →
  ∃ st' evs,
    trace st' = trace st ++ evs
    ∧ ((run (evalHandler cmd) st = (Returned tt, st')
        ∧ length (List.filter isCallback evs) = 1)
       ∨ (run (evalHandler cmd) st = (Exited, st')
          ∧ List.filter isCallback evs = []
          ∧ StringOps.trim cmd = "exit"
          ∧ Js.truthy (Js.of_field (activeContext (commandHandler st)))
            = false)).
Proof.
  intros _. rewrite evalHandler_cases. cbv zeta.
  set (a := StringOps.trim cmd).
  destruct (negb _).
  { exists (logged [ Callback Js.Null ] st), [ Callback Js.Null ].
    split; [reflexivity|]. by left. }
  destruct (String.eqb_spec a "exit") as [Hexit|_].
  { destruct (Js.truthy _) eqn:Hactive.
    - exists (logged [ LogInfo ("eval " +:+ a); SetPrompt "ava> ";
                       Callback Js.Null ] (withActiveContext None st)),
        [ LogInfo ("eval " +:+ a); SetPrompt "ava> "; Callback Js.Null ].
      split; [reflexivity|]. by left.
    - exists (logged [ LogInfo ("eval " +:+ a) ] st),
        [ LogInfo ("eval " +:+ a) ].
      split; [reflexivity|]. by right. }
  destruct (bool_decide _ && negb _).
  { exists (logged [ LogInfo ("eval " +:+ a);
                     SetPrompt ("ava " +:+ a +:+ "> ");
                     Callback Js.Null ] (withActiveContext (Some a) st)),
      [ LogInfo ("eval " +:+ a); SetPrompt ("ava " +:+ a +:+ "> ");
        Callback Js.Null ].
    split; [reflexivity|]. by left. }
  destruct (handleCommand_frame a (logged [ LogInfo ("eval " +:+ a) ] st))
    as (b & w & evs & -> & Hshell & _).
  exists (logged [ Callback Js.Undefined ]
            (afterCommand b w evs (logged [ LogInfo ("eval " +:+ a) ] st))),
    (LogInfo ("eval " +:+ a) :: evs ++ [ Callback Js.Undefined ]).
  split; [|left; split; [reflexivity|]].
  - cbn. by rewrite <- !app_assoc.
  - cbn [List.filter isCallback]. rewrite List.filter_app.
    by rewrite (callbacks_none evs Hshell).
Qed.

End Evaluating.

(** ** A handler body: [AvmCommandHandler.createFixedCapAsset] *)

Section AvmFacts.

Variable activeUser : option (string * string).
Variable xchainCreateFixedCapAsset :
  string → string → Js.value → Js.value → Z →
  list (Js.value * Js.value) → thrown + string.

Lemma holderLoop_pairs (n : nat) (args : list string) :
  length args = 2 * n →
  holderTokens (holderLoop args) = Js.Str <$> args
  ∧ length (holderLoop args) = n.
Proof.
  revert args. induction n as [|n IH]; intros args Hlen.
  - by destruct args.
  - destruct args as [|addr [|amt rest]]; [done|simpl in Hlen; lia|].
    destruct (IH rest) as [Htokens Hn]; [simpl in Hlen; lia|].
    cbn [holderLoop length]. split; [|by rewrite Hn].
    unfold holderTokens in *. cbn [mbind list_bind fmap list_fmap app fst snd].
    by rewrite Htokens.
Qed.

(** X19: with an active user and holder arguments that come in pairs,
    [createFixedCapAsset] calls the X-Chain client once, with the
    user's credentials, denomination 0 and one holder per pair of
    arguments, in order and with nothing lost; the transaction id the
    client answers is handed to the pending transaction service, and a
    failure of the client is thrown on with nothing handed over. *)
Theorem X19_createFixedCapAsset_holders
    (username password : string) (params : list string) (n : nat) :
  activeUser = Some (username, password) →
  length (drop 2 params) = 2 * n →
  ∃ holderInfos,
    holderTokens holderInfos = Js.Str <$> drop 2 params
    ∧ length holderInfos = n
    ∧ createFixedCapAsset activeUser xchainCreateFixedCapAsset params
      = let call :=
          XChainCreateFixedCapAsset username password (Js.index params 0)
            (Js.index params 1) 0 holderInfos in
        match xchainCreateFixedCapAsset username password
                (Js.index params 0) (Js.index params 1) 0 holderInfos with
        | inr res => (Returned tt, [ call; PendingTxAdd res ])
        | inl e => (Threw e, [ call ])
        end.
Proof.
  intros Huser Hlen. exists (holderLoop (drop 2 params)).
  destruct (holderLoop_pairs n _ Hlen) as [Htokens Hn].
  split; [exact Htokens|]. split; [exact Hn|].
  unfold createFixedCapAsset. rewrite Huser, Hlen.
  replace (2 * n) with (n * 2) by lia. rewrite Nat.Div0.mod_mul.
  reflexivity.
Qed.

(** X20: [createFixedCapAsset] reaches the X-Chain client exactly when
    a user is active and the holder arguments come in pairs.  Without
    an active user it prints the hint [Set active user first with
    setUser] on the console and returns; with a user and an odd number
    of holder arguments it prints [Unexpected number of holder
    arguments] on the error stream and returns; in both cases nothing
    else happens. *)
Theorem X20_createFixedCapAsset_guards (params : list string) :
  let r := createFixedCapAsset activeUser xchainCreateFixedCapAsset params in
  (existsb isNodeCall r.2 = true
   ↔ is_Some activeUser ∧ Nat.Even (length (drop 2 params)))
  ∧ (activeUser = None →
     r = (Returned tt, [ AvmLog "Set active user first with setUser" ]))
  ∧ (is_Some activeUser →
     Nat.Odd (length (drop 2 params)) →
     r = (Returned tt, [ AvmError "Unexpected number of holder arguments" ])).
Proof.
  cbv zeta. unfold createFixedCapAsset.
  destruct activeUser as [[username password]|].
  - destruct (Nat.eqb_spec 0 (length (drop 2 params) mod 2)) as [Heven|Hodd];
      cbn [negb].
    + assert (Nat.Even (length (drop 2 params))) as HE.
      { exists (length (drop 2 params) / 2).
        pose proof (Nat.div_mod_eq (length (drop 2 params)) 2). lia. }
      split; [|split; [done|]].
      * destruct (xchainCreateFixedCapAsset _ _ _ _ _ _); cbn;
          (split; [by eauto|done]).
      * intros _ HO. destruct (Nat.Even_Odd_False _ HE HO).
    + cbn. split; [|split; [done|done]]. split; [done|].
      intros [_ [k Hk]]. exfalso. apply Hodd. rewrite Hk.
      replace (2 * k) with (k * 2) by lia. by rewrite Nat.Div0.mod_mul.
  - cbn. split; [|split; [done|]].
    + split; [done|]. by intros [[? [=]] _].
    + by intros [? [=]].
Qed.

End AvmFacts.

(** ** The properties above on the handlers of the source *)

Lemma sourceRefs_allocated :
  Forall (λ r, is_Some (specs loadedApp !! r)) (registeredRefs sourceRegs).
Proof.
  apply Forall_forall. intros r Hr.
  apply (bool_decide_unpack _). revert r Hr.
  apply Forall_forall. apply (bool_decide_unpack _).
  vm_compute. exact I.
Defined.

Lemma X1_witness :
  ∃ st' : @App scriptedNode,
    run (newCommandHandler
           (infoHandler sourceHandlers) (keystoreHandler sourceHandlers)
           (avmHandler sourceHandlers) (platformHandler sourceHandlers)
           (healthHandler sourceHandlers)) loadedApp
    = (Returned tt, st')
    ∧ getContextCommands (H := scriptedNode) (commandHandler st') "health"
      = Returned [ "getLiveness"; "help"; "exit" ]
    ∧ getContextCommands (H := scriptedNode) (commandHandler st') "nowhere"
      = Returned [ "help"; "exit" ].
Proof.
  destruct (X1_context_commands_after_construction (H := scriptedNode)
              (infoHandler sourceHandlers) (keystoreHandler sourceHandlers)
              (avmHandler sourceHandlers) (platformHandler sourceHandlers)
              (healthHandler sourceHandlers) loadedApp sourceRefs_allocated)
    as (st' & Hrun & Hown & Hother & _).
  exists st'. split; [exact Hrun|]. split.
  - rewrite (Hown "health" (healthHandler sourceHandlers)); [reflexivity|].
    rewrite !elem_of_cons. tauto.
  - apply (Hother "nowhere"); [|reflexivity].
    apply (bool_decide_unpack _). vm_compute. exact I.
Defined.

Lemma X2_witness :
  ∃ st' : @App scriptedNode,
    run (newCommandHandler
           (infoHandler sourceHandlers) (keystoreHandler sourceHandlers)
           (avmHandler sourceHandlers) (platformHandler sourceHandlers)
           (healthHandler sourceHandlers)) loadedApp
    = (Returned tt, st')
    ∧ (∀ cmds, getContextCommands (H := scriptedNode) (commandHandler st') "avm" = Returned cmds →
               "_getActiveUser" ∉ cmds)
    ∧ run (handleCommand "avm _getActiveUser") st'
      = (Returned tt,
         logged [ Invoke "avm" "_getActiveUser" [] ]
           (withNode (H := scriptedNode) tt st')).
Proof.
  destruct (X2_underscore_members_hidden_but_callable (H := scriptedNode)
              (infoHandler sourceHandlers) (keystoreHandler sourceHandlers)
              (avmHandler sourceHandlers) (platformHandler sourceHandlers)
              (healthHandler sourceHandlers) loadedApp sourceRefs_allocated
              eq_refl)
    as (st' & Hrun & Hhidden).
  assert (st' = startedApp) as Hst by (symmetry; exact (f_equal snd Hrun)).
  exists st'. split; [exact Hrun|].
  destruct (Hhidden "avm" (avmHandler sourceHandlers) "_getActiveUser")
    as [Hlist Hcall].
  - rewrite !elem_of_cons. tauto.
  - reflexivity.
  - reflexivity.
  - split; [exact Hlist|]. subst st'.
    apply (Hcall "avm _getActiveUser" [] None tt); [reflexivity| |reflexivity].
    intros commandSpec Hspec. vm_compute in Hspec. discriminate.
Defined.

Lemma X3_witness :
  CommandSpec.id
    (registeredAs (CommandSpec.new [] "Show current node ID") "nodeId" "info")
  = "info_nodeId"
  ∧ CommandSpec.id (registeredAs (CommandSpec.new [] "one") "c" "a_b")
    = CommandSpec.id (registeredAs (CommandSpec.new [] "other") "b_c" "a").
Proof.
  destruct X3_id_determines_context_and_name as (Hid & _ & Hclash).
  split; [apply Hid|apply (Hclash _ _ "a" "b" "c")].
Defined.

Lemma X4_witness :
  ∃ st' : @App scriptedNode,
    run (newCommandHandler
           (infoHandler sourceHandlers) (keystoreHandler sourceHandlers)
           (avmHandler sourceHandlers) (platformHandler sourceHandlers)
           (healthHandler sourceHandlers)) loadedApp
    = (Returned tt, st')
    ∧ ∀ obj c n r s0,
        (obj, c) ∈ sourceRegs →
        (n, r) ∈ metadata obj →
        specs loadedApp !! r = Some s0 →
        getCommandSpec st' c n = Some (registeredAs s0 n c).
Proof.
  apply (X4_every_decorated_command_is_registered (H := scriptedNode)
           (infoHandler sourceHandlers) (keystoreHandler sourceHandlers)
           (avmHandler sourceHandlers) (platformHandler sourceHandlers)
           (healthHandler sourceHandlers) loadedApp).
  - exact sourceRefs_allocated.
  - apply (bool_decide_unpack _). vm_compute. exact I.
  - apply (bool_decide_unpack _). vm_compute. exact I.
Defined.

Lemma X5_witness :
  completer (H := scriptedNode) (commandHandler startedApp) "he"
  = Returned (Some ([ "help"; "health" ], "he"))
  ∧ Forall (λ c, StringOps.startsWith c "he" = true) [ "help"; "health" ]
  ∧ ∀ c, c ∈ getCompletions "ex" [ "help"; "exit"; "export"; "info" ]
         ↔ c ∈ [ "help"; "exit"; "export"; "info" ]
           ∧ StringOps.startsWith c "ex" = true.
Proof.
  destruct (X5_completions_start_with_the_token (H := scriptedNode))
    as (Hcompleter & Hfilter & _).
  assert (completer (H := scriptedNode) (commandHandler startedApp) "he"
          = Returned (Some ([ "help"; "health" ], "he"))) as Hrun
    by (vm_compute; reflexivity).
  split; [exact Hrun|]. split.
  - apply (Hcompleter (commandHandler startedApp) "he" _ "he" Hrun).
  - apply (Hfilter "ex" [ "help"; "exit"; "export"; "info" ]).
Defined.

Lemma X6_witness :
  completer (H := scriptedNode) (commandHandler startedApp)
    "avm send to"
  = Returned None
  ∧ completer (H := scriptedNode) (commandHandler startedApp)
      "wallet e"
    = Returned (Some ([ "exit" ], "e")).
Proof.
  destruct (X6_completer_corners (H := scriptedNode)
              (commandHandler startedApp) "avm send to")
    as (_ & Hthree & _ & _).
  destruct (X6_completer_corners (H := scriptedNode)
              (commandHandler startedApp) "wallet e")
    as (_ & _ & _ & Hunknown).
  split.
  - apply Hthree; [reflexivity|]. vm_compute. lia.
  - rewrite (Hunknown "wallet" "e"); reflexivity.
Defined.

Lemma X7_witness :
  run (handleCommand "info") startedApp
  = (Returned tt,
     logged [ ConsoleError
                "Invalid command. Type help to see all supported commands" ]
       startedApp).
Proof.
  apply (X7_basic_usage_hint (H := scriptedNode) startedApp "info").
  right. exists "info". repeat split; [discriminate|discriminate].
Defined.

Lemma X8_witness :
  run (handleCommand "wallet list") startedApp
  = (Returned tt, logged [ ConsoleLog "Unknown context or command" ] startedApp).
Proof.
  apply (X8_unknown_context (H := scriptedNode)
           startedApp "wallet list" "wallet" "list" []).
  - split.
    + intros [Hhelp|[(c & Hc & _)|Hconnect]]; vm_compute in *; discriminate.
    + right. split; reflexivity.
  - reflexivity.
Defined.

Lemma X9_witness :
  run (handleCommand "avm getAssetDescription") startedApp
  = (Returned tt,
     logged
       [ ConsoleLog "Invalid Arguments";
         ConsoleLog "Usage: getAssetDescription <assetId>";
         ConsoleLog
           "Usage: - Get an asset's name and symbol from asset id";
         ConsoleLog EmptyString ] startedApp)
  ∧ invocations
      (trace (run (handleCommand "avm getAssetDescription") startedApp).2)
    = invocations (trace startedApp).
Proof.
  apply (X9_too_few_arguments (H := scriptedNode) startedApp
           "avm getAssetDescription" "avm" "getAssetDescription" []
           (registeredAs
              (CommandSpec.new [ arg "assetId" ]
                 "Get an asset's name and symbol from asset id")
              "getAssetDescription" "avm")).
  - split; [split|].
    + intros [Hhelp|[(c & Hc & _)|Hconnect]]; vm_compute in *; discriminate.
    + right. split; reflexivity.
    + eexists. split; reflexivity.
  - reflexivity.
  - reflexivity.
  - vm_compute. lia.
Defined.

Lemma X10_witness :
  run (printHelp (Some "health")) startedApp
  = (Returned tt,
     logged (map ConsoleLog (helpHeader ++ helpBlock startedApp "health"))
       startedApp)
  ∧ run (printHelp (Some "wallet")) startedApp
    = (Returned tt, logged (map ConsoleLog helpHeader) startedApp).
Proof.
  assert (NoDup (JsObject.keys (contextMethodMap (commandHandler startedApp))))
    as Hnd.
  { apply (bool_decide_unpack _). vm_compute. exact I. }
  destruct (X10_help_of_one_context (H := scriptedNode) startedApp "health")
    as [Hin _]; [discriminate|exact Hnd|].
  destruct (X10_help_of_one_context (H := scriptedNode) startedApp "wallet")
    as [_ Hout]; [discriminate|exact Hnd|].
  split.
  - apply Hin. apply (bool_decide_unpack _). vm_compute. exact I.
  - apply Hout. apply (bool_decide_unpack _). vm_compute. exact I.
Defined.

Lemma X11_witness :
  run (handleCommand "health help") startedApp
  = (Returned tt,
     logged (map ConsoleLog (helpLines startedApp (Some "health")))
       startedApp).
Proof.
  destruct (X11_help_lines (H := scriptedNode) startedApp "health help")
    as [_ Hcontext].
  apply Hcontext; [reflexivity| |discriminate].
  vm_compute. eauto.
Defined.

Lemma X12_witness :
  (∃ w evs,
     run (connectAvaNode Js.Undefined Js.Undefined Js.Undefined) startedApp
     = (Returned tt,
        afterCommand (H := scriptedNode) true w
          (NewAvalanche (Js.Str "127.0.0.1") (Js.Num 9650) (Js.Str "http")
           :: evs) startedApp))
  ∧ (∃ w,
       run (connectAvaNode (Js.Str "10.0.0.1") Js.Undefined Js.Undefined)
         offlineApp
       = (Returned tt,
          afterCommand (H := unreachableNode) false w
            [ NewAvalanche (Js.Str "10.0.0.1") (Js.Num 9650) (Js.Str "http");
              ConsoleError
                "Failed to connect to AVA node. Error: connect ECONNREFUSED 10.0.0.1:9650" ]
            offlineApp)).
Proof.
  split.
  - destruct (X12_connect_sets_the_flag (H := scriptedNode)
                Js.Undefined Js.Undefined Js.Undefined startedApp)
      as (w & evs & Hrun & _).
    exists w, evs. exact Hrun.
  - destruct (X12_connect_sets_the_flag (H := unreachableNode)
                (Js.Str "10.0.0.1") Js.Undefined Js.Undefined offlineApp)
      as (w & evs & Hrun & Hfail & _).
    exists w. rewrite Hrun. rewrite (Hfail _ eq_refl). reflexivity.
Defined.

Lemma X13_witness :
  let r := run (handleCommand "info nodeId") startedApp in
  r.1 ≠ Exited
  ∧ commandHandler r.2 = commandHandler startedApp
  ∧ specs r.2 = specs startedApp
  ∧ (∃ evs, trace r.2 = trace startedApp ++ evs
            ∧ Forall (λ e, isShellEvent e = false) evs
            ∧ length (invocations evs) ≤ 1)
  ∧ (head (splitTokens (Collaborators := scriptedNode) "info nodeId")
     ≠ Some "connect" →
     isConnected r.2 = isConnected startedApp).
Proof.
  apply (X13_handleCommand_leaves_the_session (H := scriptedNode)
           "info nodeId" startedApp).
  reflexivity.
Defined.

Lemma X14_witness :
  run (handleCommand "connect 10.0.0.1";; handleCommand "info nodeId")
    offlineApp
  = (Returned tt,
     afterCommand (H := unreachableNode) false tt
       [ NewAvalanche (Js.Str "127.0.0.1") (Js.Num 9650) (Js.Str "http");
         ConsoleError
           "Failed to connect to AVA node. Error: connect ECONNREFUSED 10.0.0.1:9650";
         ConsoleError "Node is disconnected";
         ConsoleLog CONNECT_USAGE ] offlineApp).
Proof.
  apply (X14_failed_connect_then_command (H := unreachableNode)
           offlineApp "connect 10.0.0.1" "info nodeId" "info" "nodeId"
           [ "10.0.0.1" ] []
           (Error "Error" "connect ECONNREFUSED 10.0.0.1:9650") tt).
  - reflexivity.
  - intros [[=] _].
  - reflexivity.
  - split; [split|].
    + intros [Hhelp|[(c & Hc & _)|Hconnect]]; vm_compute in *; discriminate.
    + right. split; reflexivity.
    + eexists. split; reflexivity.
Defined.

Lemma X15_witness :
  run (evalHandler "   ") startedApp
  = (Returned tt, logged [ Callback Js.Null ] startedApp).
Proof.
  apply (X15_blank_line (H := scriptedNode) startedApp "   "). reflexivity.
Defined.

Lemma X16_witness :
  run (evalHandler " avm ") startedApp
  = (Returned tt,
     logged [ LogInfo "eval avm"; SetPrompt "ava avm> "; Callback Js.Null ]
       (withActiveContext (Some "avm") startedApp)).
Proof.
  apply (X16_entering_a_context (H := scriptedNode) startedApp " avm " "avm").
  - vm_compute. reflexivity.
  - discriminate.
  - discriminate.
  - vm_compute. eauto.
  - intros Hactive. vm_compute in Hactive. discriminate.
Defined.

Lemma X17_witness :
  run (evalHandler "avm";; evalHandler "exit") startedApp
  = (Returned tt,
     logged [ LogInfo "eval avm"; SetPrompt "ava avm> "; Callback Js.Null;
              LogInfo "eval exit"; SetPrompt "ava> "; Callback Js.Null ]
       startedApp).
Proof.
  apply (X17_enter_then_exit (H := scriptedNode) startedApp "avm" "exit" "avm").
  - reflexivity.
  - vm_compute. reflexivity.
  - discriminate.
  - discriminate.
  - vm_compute. eauto.
  - vm_compute. reflexivity.
Defined.

Lemma X18_witness :
  ∃ (st' : @App scriptedNode) evs,
    trace st' = trace startedApp ++ evs
    ∧ ((run (evalHandler "info nodeId") startedApp = (Returned tt, st')
        ∧ length (List.filter isCallback evs) = 1)
       ∨ (run (evalHandler "info nodeId") startedApp = (Exited, st')
          ∧ List.filter isCallback evs = []
          ∧ StringOps.trim "info nodeId" = "exit"
          ∧ Js.truthy (Js.of_field (activeContext (commandHandler startedApp)))
            = false)).
Proof.
  apply (X18_one_callback_per_line (H := scriptedNode)
           "info nodeId" startedApp).
  reflexivity.
Defined.

Lemma X19_witness :
  ∃ holderInfos,
    holderTokens holderInfos
    = [ Js.Str "X-addr1"; Js.Str "100"; Js.Str "X-addr2"; Js.Str "250" ]
    ∧ length holderInfos = 2
    ∧ createFixedCapAsset (Some ("alice", "secret")) answeringXChain
        [ "Coin"; "CN"; "X-addr1"; "100"; "X-addr2"; "250" ]
      = (Returned tt,
         [ XChainCreateFixedCapAsset "alice" "secret" (Js.Str "Coin")
             (Js.Str "CN") 0 holderInfos;
           PendingTxAdd "tx-1" ]).
Proof.
  apply (X19_createFixedCapAsset_holders (Some ("alice", "secret"))
           answeringXChain "alice" "secret"
           [ "Coin"; "CN"; "X-addr1"; "100"; "X-addr2"; "250" ] 2);
    reflexivity.
Defined.

Lemma X20_witness :
  createFixedCapAsset (Some ("alice", "secret")) answeringXChain
    [ "Coin"; "CN"; "X-addr1" ]
  = (Returned tt, [ AvmError "Unexpected number of holder arguments" ])
  ∧ createFixedCapAsset None answeringXChain
      [ "Coin"; "CN"; "X-addr1"; "100" ]
    = (Returned tt, [ AvmLog "Set active user first with setUser" ]).
Proof.
  destruct (X20_createFixedCapAsset_guards (Some ("alice", "secret"))
              answeringXChain [ "Coin"; "CN"; "X-addr1" ]) as (_ & _ & Hodd).
  destruct (X20_createFixedCapAsset_guards None answeringXChain
              [ "Coin"; "CN"; "X-addr1"; "100" ]) as (_ & Hnone & _).
  split.
  - apply Hodd; [by eexists|]. exists 0. reflexivity.
  - apply Hnone. reflexivity.
Defined.
